(** * Job-Assistant: content extraction and heuristic validation

    A shallow embedding of [CV_Coverletter/cv_coverletter.py]: the URL
    plausibility check, the HTML and PDF text extractors, the two cue-counting
    classifiers, the prompt assembler and the exit-code behaviour of [main].

    Python [str] values are modelled as [string]; a character is a code point
    below 256 (Latin-1), which covers every literal of the program. *)

From Stdlib Require Import Bool Arith Lia List ZArith.
From Stdlib Require Import Ascii String.
Import ListNotations.

Open Scope string_scope.

(** ** Python string primitives *)

Module PyStr.

(** Code point of a character. *)
Definition ord (c : ascii) : nat := nat_of_ascii c.

(** [str.isspace] on one character, for code points below 256:
    TAB..CR, FS..US, SPACE, NEL and NBSP. *)
Definition isspace (c : ascii) : bool :=
  let n := ord c in
  (((9 <=? n) && (n <=? 13)) || ((28 <=? n) && (n <=? 32))
   || (n =? 133) || (n =? 160))%nat.

(** [str.lower] on one character: A-Z and the Latin-1 capitals
    (U+00C0..U+00DE without the multiplication sign) move up by 32. *)
Definition lower_char (c : ascii) : ascii :=
  let n := ord c in
  if (((65 <=? n) && (n <=? 90))
      || ((192 <=? n) && (n <=? 222) && negb (n =? 215)))%nat
  then ascii_of_nat (n + 32) else c.

(** [s.lower()] *)
Fixpoint lower (s : string) : string :=
  match s with
  | EmptyString => EmptyString
  | String c s' => String (lower_char c) (lower s')
  end.

(** [s.startswith(p)] *)
Fixpoint startswith (s p : string) {struct p} : bool :=
  match p, s with
  | EmptyString, _ => true
  | String _ _, EmptyString => false
  | String a p', String b s' => Ascii.eqb a b && startswith s' p'
  end.

(** [sub in s] on strings: substring containment. *)
Fixpoint contains (sub s : string) : bool :=
  startswith s sub ||
  match s with
  | EmptyString => false
  | String _ s' => contains sub s'
  end.

(** [s.lstrip()] *)
Fixpoint lstrip (s : string) : string :=
  match s with
  | EmptyString => EmptyString
  | String c s' => if isspace c then lstrip s' else s
  end.

(** [s.rstrip()] *)
Fixpoint rstrip (s : string) : string :=
  match s with
  | EmptyString => EmptyString
  | String c s' =>
      match rstrip s' with
      | EmptyString => if isspace c then EmptyString else String c EmptyString
      | r => String c r
      end
  end.

(** [s.strip()] *)
Definition strip (s : string) : string := rstrip (lstrip s).

(** [sep.join(l)] *)
Definition join (sep : string) (l : list string) : string := String.concat sep l.

(** Truthiness of a string: [bool(s)]. *)
Definition truthy (s : string) : bool :=
  match s with EmptyString => false | _ => true end.

(** [len(s)] *)
Definition len (s : string) : Z := Z.of_nat (String.length s).

(** The line feed, Python's ["\n"]. *)
Definition NL : string := String "010"%char EmptyString.

(** [sum(l)] and [any(f(x) for x in l)] *)
Definition sum (l : list Z) : Z := fold_right Z.add 0%Z l.
Definition any {A} (f : A -> bool) (l : list A) : bool := existsb f l.

(** The substring relation that [contains] decides. *)
Definition Substring (sub s : string) : Prop :=
  exists p q, s = p ++ sub ++ q.

End PyStr.

Import PyStr.

(** ** Exceptions, exits and the trace of a run *)

(** An exception ([Exception] and its subclasses) is represented by its
    message, [str(e)]. *)
Definition exn := string.

(** Result of a pure computation that may raise. *)
Inductive result (A : Type) : Type :=
| Ok (a : A)
| Err (e : exn).
Arguments Ok {A} a.
Arguments Err {A} e.

(** What a run does to the outside world, in order.  [ChatCreate] carries
    the model and the messages of the call; its temperature is the constant
    0.2 and is left out. *)
Inductive event : Type :=
| Stdout (s : string)
| Stderr (s : string)
| HttpGet (url : string) (timeout : Z)
| OpenFile (path : string)
| ChatCreate (model : string) (messages : list (string * string)).

Definition trace := list event.

(** How a statement ends: normally, with an [Exception], or with
    [SystemExit] (which [except Exception] does not catch). *)
Inductive outcome (A : Type) : Type :=
| Return (a : A)
| Raise (e : exn)
| SysExit (code : Z).
Arguments Return {A} a.
Arguments Raise {A} e.
Arguments SysExit {A} code.

Definition Proc (A : Type) : Type := trace -> outcome A * trace.

Definition ret {A} (a : A) : Proc A := fun tr => (Return a, tr).

Definition bind {A B} (m : Proc A) (k : A -> Proc B) : Proc B :=
  fun tr =>
    match m tr with
    | (Return a, tr') => k a tr'
    | (Raise e, tr') => (Raise e, tr')
    | (SysExit c, tr') => (SysExit c, tr')
    end.

Notation "x <- m ;; k" := (bind m (fun x => k))
  (at level 61, m at next level, right associativity).
Notation "m ;;; k" := (bind m (fun _ => k))
  (at level 61, right associativity).

Definition emit (e : event) : Proc unit := fun tr => (Return tt, (tr ++ [e])%list).
Definition print (s : string) : Proc unit := emit (Stdout s).
Definition print_err (s : string) : Proc unit := emit (Stderr s).
Definition sys_exit {A} (code : Z) : Proc A := fun tr => (SysExit code, tr).
Definition raise {A} (e : exn) : Proc A := fun tr => (Raise e, tr).
Definition lift {A} (r : result A) : Proc A :=
  match r with Ok a => ret a | Err e => raise e end.

(** [try: m  except Exception as e: h e] *)
Definition try_except {A} (m : Proc A) (h : exn -> Proc A) : Proc A :=
  fun tr =>
    match m tr with
    | (Raise e, tr') => h e tr'
    | r => r
    end.

(** [if b: m] *)
Definition when (b : bool) (m : Proc unit) : Proc unit :=
  if b then m else ret tt.

(** ** Setup *)

Definition SYSTEM_PROMPT : string :=
  NL ++ "You are an assistant who analyzes user's CV against the job description " ++
  NL ++ "and provide a short summary if the user is fit for this job. If the user is fit for the job, " ++
  NL ++ "write a cover letter for the user to apply for the job. Keep the cover letter professional, short, " ++
  NL ++ "and formal." ++
  NL ++
  NL ++ "Important things to notice before analyzing CV:" ++
  NL ++ "1. Always check if the CV is actually a CV or just random text" ++
  NL ++ "2. Check if the job description fetched from the website is the job description or not" ++
  NL ++ "   and ignore text related to navigation" ++
  NL ++ "3. Also check the link of the job posting, if it actually resembles a job posting or is just a fake website" ++
  NL ++ "4. If any one of these two checks fails, do not analyze the CV against the job description and give an" ++
  NL ++ "   appropriate response as you think" ++
  NL ++ "5. Always respond in Markdown." ++
  NL.

(** ** Utilities *)

(** [re.match(r"^https?://", s)] succeeds exactly when [s] begins with
    [http://] or with [https://]. *)
Definition re_match_scheme (s : string) : bool :=
  startswith s "http://" || startswith s "https://".

(** [url or ""] *)
Definition or_empty (o : option string) : string :=
  match o with
  | Some s => if truthy s then s else ""
  | None => ""
  end.

Definition url_hints : list string :=
  ["/jobs"; "/careers"; "/job/"; "/positions"; "/openings"; "/positions/"].

(** The argument may be [None]; past the scheme guard, [url.lower()] on
    [None] would raise. *)
Definition is_probable_job_url (url : option string) : result bool :=
  if negb (re_match_scheme (or_empty url)) then Ok false
  else
    match url with
    | None => Err "AttributeError: 'NoneType' object has no attribute 'lower'"
    | Some u => Ok (any (fun h => contains h (lower u)) url_hints)
    end.

(** *** Parsed HTML

    The tree BeautifulSoup builds from the response.  [NavigableString] is a
    string that [get_text] renders (plain text, CDATA); [Special] is one it
    skips (comments, declarations, doctype). *)
#[warnings="-register-all"]
Inductive node : Type :=
| NavigableString (s : string)
| Special (s : string)
| Tag (name : string) (contents : list node).

(** The parsed document: the contents of the soup object. *)
Definition soup := list node.

Definition tag_in (names : list string) (n : node) : bool :=
  match n with
  | Tag nm _ => existsb (String.eqb nm) names
  | _ => false
  end.

(** [tag.find(name)]: the first descendant tag called [name], in document
    order; [soup.title] and [soup.body] are [find] on the document. *)
Fixpoint find_node (name : string) (n : node) : option node :=
  match n with
  | Tag nm kids =>
      if String.eqb nm name then Some n
      else
        (fix first (l : list node) : option node :=
           match l with
           | [] => None
           | k :: r =>
               match find_node name k with
               | Some x => Some x
               | None => first r
               end
           end) kids
  | _ => None
  end.

Fixpoint find (name : string) (l : list node) : option node :=
  match l with
  | [] => None
  | k :: r =>
      match find_node name k with
      | Some x => Some x
      | None => find name r
      end
  end.

(** [tag.string]: the single string child, looked for through single tag
    children. *)
Fixpoint dot_string (n : node) : option string :=
  match n with
  | NavigableString s => Some s
  | Special s => Some s
  | Tag _ kids =>
      match kids with
      | k :: r => match r with [] => dot_string k | _ :: _ => None end
      | [] => None
      end
  end.

(** [for t in tag(names): t.decompose()] seen from a node that stays: every
    descendant tag whose name is in [names] is cut out with all it holds. *)
Fixpoint decompose_all (names : list string) (n : node) : node :=
  match n with
  | Tag nm kids =>
      Tag nm
        ((fix rest (l : list node) : list node :=
            match l with
            | [] => []
            | k :: r =>
                if tag_in names k then rest r
                else decompose_all names k :: rest r
            end) kids)
  | _ => n
  end.

(** The decomposition on the contents of a tag that stays. *)
Fixpoint decompose_list (names : list string) (l : list node) : list node :=
  match l with
  | [] => []
  | k :: r =>
      if tag_in names k then decompose_list names r
      else decompose_all names k :: decompose_list names r
  end.

(** The strings below a node that [get_text] renders, in document order. *)
Fixpoint all_strings (n : node) : list string :=
  match n with
  | NavigableString s => [s]
  | Special _ => []
  | Tag _ kids => flat_map all_strings kids
  end.

(** [tag.get_text(separator=sep, strip=True)]: every rendered string is
    stripped, the empty ones are dropped, the rest joined by [sep]. *)
Definition get_text (sep : string) (n : node) : string :=
  join sep (filter truthy (map strip (all_strings n))).

Definition irrelevant_tags : list string :=
  ["script"; "style"; "img"; "input"; "nav"; "footer"; "header";
   "noscript"; "svg"; "button"; "form"].

(** The name the soup object itself carries. *)
Definition document (sp : soup) : node := Tag "[document]" sp.

Definition soup_title (sp : soup) : string :=
  match find "title" sp with
  | Some t =>
      match dot_string t with
      | Some s => if truthy s then strip s else "No title found"
      | None => "No title found"
      end
  | None => "No title found"
  end.

Definition soup_text (sp : soup) : string :=
  match find "body" sp with
  | Some body => get_text NL (decompose_all irrelevant_tags body)
  | None => get_text NL (document sp)
  end.

(** *** Parsed PDF

    A page is what [page.extract_text()] does on it: a text, [None], or an
    [Exception]. *)
Definition page := result (option string).

Definition extract_text (p : page) : Proc (option string) := lift p.

(** *** The outside world of one run

    What the environment, the file system, the network and the remote model
    answer when asked.  [requests_get] stands for the GET, the status check
    and the parse of the response; [pdf_pages] for opening the file and
    reading it as a PDF; [chat_create] for the completion call up to
    [resp.choices[0].message.content]. *)
Record World : Type := {
  getenv : string -> option string;
  path_exists : string -> bool;
  requests_get : string -> result soup;
  pdf_pages : string -> result (list page);
  chat_create : string -> list (string * string) -> result string
}.

Definition fetch_job_text (w : World) (url : string) (timeout : Z)
  : Proc (string * string) :=
  emit (HttpGet url timeout) ;;;
  sp <- lift (requests_get w url) ;;
  let title := soup_title sp in
  let text := soup_text sp in
  ret (title, text).

(** The loop over [reader.pages]: a page whose extraction raises leaves
    [chunks] as it is. *)
Fixpoint for_pages (pages : list page) (chunks : list string)
  : Proc (list string) :=
  match pages with
  | [] => ret chunks
  | p :: rest =>
      chunks' <- try_except
                   (t <- extract_text p ;;
                    ret (chunks ++ [or_empty t])%list)
                   (fun _ => ret chunks) ;;
      for_pages rest chunks'
  end.

Definition extract_pdf_text (w : World) (path : string) : Proc string :=
  emit (OpenFile path) ;;;
  pages <- lift (pdf_pages w path) ;;
  chunks <- for_pages pages [] ;;
  ret (strip (join NL chunks)).

Definition cv_cues : list string :=
  ["experience"; "education"; "skills"; "projects"; "summary"; "work";
   "certification"].

Definition jd_cues : list string :=
  ["responsibilities"; "requirements"; "qualifications"; "role";
   "about the role"; "what you'll do"].

(** [sum(1 for c in cues if c in text.lower())] *)
Definition cue_count (cues : list string) (text : string) : Z :=
  sum (map (fun _ => 1%Z) (filter (fun c => contains c (lower text)) cues)).

Definition looks_like_cv (text : string) : bool :=
  if negb (truthy text) || (len text <? 500)%Z then false
  else (2 <=? cue_count cv_cues text)%Z.

Definition looks_like_job_description (text : string) : bool :=
  if negb (truthy text) || (len text <? 500)%Z then false
  else (1 <=? cue_count jd_cues text)%Z.

Definition build_user_prompt (job_text cv_text url : string) : string :=
  NL ++ "Job Posting:" ++ NL ++ job_text ++ NL ++
  NL ++ "CV:" ++ NL ++ cv_text ++ NL ++
  NL ++ "Url:" ++ NL ++ url ++ NL.

(** ** The command line program *)

(** [bool(os.getenv(...))]: the variable is set and not empty. *)
Definition is_set (o : option string) : bool := truthy (or_empty o).

(** The parsed arguments. *)
Record Args : Type := { job_url : string; cv : string; model : string }.

Definition generic : string :=
  "It looks like either the job posting URL/text or the CV content may be invalid or incomplete." ++ NL ++ NL ++
  "Please make sure you: " ++ NL ++
  "- Paste a real job posting URL (from a careers site or job board)" ++ NL ++
  "- Provide a proper CV PDF (not random text or a scan without selectable text)" ++ NL ++ NL ++
  "Once both are valid, I can analyze the CV against the job description and draft a short cover letter.".

Definition chat_completions_create (w : World) (model : string)
    (messages : list (string * string)) : Proc string :=
  emit (ChatCreate model messages) ;;;
  lift (chat_create w model messages).

Definition main (w : World) (args : Args) : Proc unit :=
  let api_key := getenv w "OPENAI_API_KEY" in
  when (negb (is_set api_key))
    (print_err "[error] OPENAI_API_KEY not set. Put it in a .env or environment." ;;;
     sys_exit 2) ;;;
  probable <- lift (is_probable_job_url (Some (job_url args))) ;;
  when (negb probable)
    (print "[notice] The provided URL doesn't look like a typical job posting. The assistant may decline to analyze.") ;;;
  when (negb (path_exists w (cv args)))
    (print_err ("[error] CV file not found: " ++ cv args) ;;;
     sys_exit 2) ;;;
  fetched <- try_except
               (fetch_job_text w (job_url args) 25)
               (fun e =>
                  print_err ("[error] Failed to fetch job posting: " ++ e) ;;;
                  sys_exit 1) ;;
  let job_text := snd fetched in
  cv_text <- try_except
               (extract_pdf_text w (cv args))
               (fun e =>
                  print_err ("[error] Failed to extract CV: " ++ e) ;;;
                  sys_exit 1) ;;
  when (negb (looks_like_job_description job_text) || negb (looks_like_cv cv_text))
    (print generic ;;;
     sys_exit 0) ;;;
  let user_prompt := build_user_prompt job_text cv_text (job_url args) in
  let messages := [("system", SYSTEM_PROMPT); ("user", user_prompt)] in
  content <- try_except
               (chat_completions_create w (model args) messages)
               (fun e =>
                  print_err ("[error] OpenAI API error: " ++ e) ;;;
                  sys_exit 1) ;;
  print content.

(** The status the interpreter exits with: 0 when [main] returns, the
    argument of [sys.exit], 1 for an exception nobody caught. *)
Definition exit_status {A} (o : outcome A) : Z :=
  match o with
  | Return _ => 0
  | SysExit c => c
  | Raise _ => 1
  end.

(** One run of the program, from an empty trace. *)
Definition run (w : World) (args : Args) : outcome unit * trace :=
  main w args [].

(** ** Reference descriptions used by the statements *)

(** One entry per page whose extraction returns, in document order. *)
Definition kept_texts (pages : list page) : list string :=
  flat_map (fun p => match p with Ok t => [or_empty t] | Err _ => [] end) pages.

(** One entry per page in document order, the empty string for a page whose
    extraction raises. *)
Definition entry_per_page (pages : list page) : list string :=
  map (fun p => match p with Ok t => or_empty t | Err _ => "" end) pages.

(** The rendered strings of a node that lie below no tag named in [names]
    (the node itself included), in document order. *)
Fixpoint strings_outside (names : list string) (n : node) : list string :=
  match n with
  | NavigableString s => [s]
  | Special _ => []
  | Tag nm kids =>
      if existsb (String.eqb nm) names then []
      else flat_map (strings_outside names) kids
  end.

(** The fragments of a list of strings: each one stripped, the empty ones
    left out. *)
Definition fragments (l : list string) : list string :=
  filter truthy (map strip l).

(** The path hints the URL check is described with. *)
Definition path_hints : list string :=
  ["/jobs"; "/careers"; "/job/"; "/positions"; "/openings"].

(** ** Sample inputs *)

(** A world that answers every question the same way. *)
Definition sample_world (key : option string) (cv_exists : bool)
    (fetched : result soup) (pdf : result (list page))
    (reply : result string) : World :=
  {| getenv := fun name =>
       if String.eqb name "OPENAI_API_KEY" then key else None;
     path_exists := fun _ => cv_exists;
     requests_get := fun _ => fetched;
     pdf_pages := fun _ => pdf;
     chat_create := fun _ _ => reply |}.

(** Three pages, the second of which cannot be read. *)
Definition pages_middle_fault : list page :=
  [Ok (Some "Page one"); Err "corrupt page"; Ok (Some "Page three")].

(** [c * n] *)
Fixpoint times (c : ascii) (n : nat) : string :=
  match n with
  | O => EmptyString
  | S n' => String c (times c n')
  end.

(** Texts of 520 and 513 characters naming exactly two CV cues and exactly
    one job-description cue. *)
Definition cv_two_cues : string := "Experience, EDUCATION " ++ times "x" 498.
Definition jd_one_cue : string := "Requirements: " ++ times "-" 499.

(** A short text that names many cues. *)
Definition short_with_cues : string :=
  "experience education skills projects responsibilities requirements role".

(** A page whose body holds a navigation block and a content block. *)
Definition nav_and_content : list node :=
  [Tag "nav" [NavigableString "Home About"];
   Tag "div" [NavigableString "Job Description Here"]].

Definition sample_page : soup :=
  [Special "html";
   Tag "html"
     [Tag "head" [Tag "title" [NavigableString " Engineer "]];
      Tag "body" nav_and_content]].

(** ** The shape of a run *)

Definition notice : string :=
  "[notice] The provided URL doesn't look like a typical job posting. The assistant may decline to analyze.".

(** What a run has printed when it reaches the check of the CV path. *)
Definition notice_trace (url : string) : trace :=
  if re_match_scheme url && any (fun h => contains h (lower url)) url_hints
  then [] else [Stdout notice].

(** The messages handed to the model. *)
Definition messages_for (job_text cv_text url : string)
  : list (string * string) :=
  [("system", SYSTEM_PROMPT); ("user", build_user_prompt job_text cv_text url)].

(** The exit status and the events of the run on [w] and [args]. *)
Definition status (w : World) (args : Args) : Z := exit_status (fst (run w args)).
Definition events (w : World) (args : Args) : trace := snd (run w args).

(** A run that ends in the handled rejection: [sys.exit(0)] right after the
    guidance message, and no call of the model anywhere. *)
Definition rejected (w : World) (args : Args) : Prop :=
  fst (run w args) = SysExit 0
  /\ status w args = 0%Z
  /\ (exists tr, events w args = (tr ++ [Stdout generic])%list)
  /\ forall m msgs, ~ In (ChatCreate m msgs) (events w args).

(** A CV text of 50 characters, a page with a well-formed job description,
    and a run on them; the model is out of reach. *)
Definition cv_50 : string := "experience education skills " ++ times "z" 22.

Definition jd_page : soup :=
  [Tag "html"
     [Tag "head" [Tag "title" [NavigableString "Engineer"]];
      Tag "body"
        [Tag "nav" [NavigableString "Home About"];
         Tag "div" [NavigableString jd_one_cue]]]].

Definition sample_args : Args :=
  {| job_url := "https://company.com/careers/123";
     cv := "cv.pdf";
     model := "gpt-4o-mini" |}.

Definition short_cv_world : World :=
  sample_world (Some "sk-test") true (Ok jd_page) (Ok [Ok (Some cv_50)])
    (Err "unreachable").

(** ** [Job_Search/job_search.py] *)

Module JobSearch.

(** [tag.get_text(separator=sep)]: the rendered strings as they are, joined
    by [sep]. *)
Definition get_text_plain (sep : string) (n : node) : string :=
  join sep (all_strings n).

(** The object [Website(url)] leaves behind; [title] is [None] when the
    title tag has no single string. *)
Record Website : Type := {
  url : string;
  title : option string;
  text : string
}.

(** [Website.__init__] *)
Definition Website_init (w : World) (u : string) : Proc Website :=
  try_except
    (emit (HttpGet u 20) ;;;
     sp <- lift (requests_get w u) ;;
     let title :=
       match find "title" sp with
       | Some t => dot_string t
       | None => Some "No title found"
       end in
     let text := lower (get_text_plain " " (document sp)) in
     ret {| url := u; title := title; text := text |})
    (fun e =>
       print ("[Website] Failed to fetch " ++ u ++ ": " ++ e) ;;;
       ret {| url := u; title := Some "Error"; text := "" |}).

Definition careers_url : string :=
  "https://www.google.com/about/careers/applications/jobs".

Definition system_prompt : string :=
  "You are a job search assistant who finds real-time DevOps-related job listings from " ++
  "career pages, job boards, and developer platforms. Return results with job title, " ++
  "company name, and a link to the listing. Focus on DevOps, SRE, Platform Engineering, " ++
  "and CI/CD tooling roles.".

Definition user_prompt (listing : string) : string :=
  NL ++ "Here is a list of job postings:" ++ NL ++
  NL ++ listing ++ NL ++
  NL ++ "Please extract only the jobs that are clearly related to:" ++
  NL ++ "- DevOps" ++
  NL ++ "- Site Reliability Engineering (SRE)" ++
  NL ++ "- Platform Engineering" ++
  NL ++ "- CI/CD or Infrastructure" ++ NL ++
  NL ++ "Exclude roles like sales, instructors, analysts, and anything not related to DevOps tools." ++ NL ++
  NL ++ "For each DevOps-related job, return:" ++
  NL ++ "- Job Title" ++
  NL ++ "- Company" ++
  NL ++ "- Location" ++
  NL ++ "- Years of Experience" ++
  NL ++ "- Skill set required" ++
  NL ++ "- (if available) Whether it's remote" ++
  NL.

(** The world of a run of this program: the answers of [World], and what
    building the client [OpenAI(api_key=..., base_url=...)] does with the
    key it is given. *)
Record Env : Type := {
  world : World;
  new_client : option string -> string -> result unit
}.

Definition main (env : Env) : Proc unit :=
  job_search <- Website_init (world env) careers_url ;;
  let messages :=
    [("system", system_prompt); ("user", user_prompt (text job_search))] in
  lift (new_client env (getenv (world env) "GROQ_API_KEY")
          "https://api.groq.com/openai/v1") ;;;
  content <- chat_completions_create (world env) "gemma2-9b-it" messages ;;
  print content.

(** One run of the program, from an empty trace. *)
Definition run (env : Env) : outcome unit * trace := main env [].

End JobSearch.

(** ** Further reference descriptions *)

(** The calls a run makes to the outside: the fetch, the file, the model. *)
Definition is_call (e : event) : bool :=
  match e with
  | HttpGet _ _ | OpenFile _ | ChatCreate _ _ => true
  | Stdout _ | Stderr _ => false
  end.

Definition calls (tr : trace) : trace := filter is_call tr.

Definition is_stderr (e : event) : bool :=
  match e with Stderr _ => true | _ => false end.

(** A page that gives no character other than white space: it raises, gives
    [None], or gives a text that strips to nothing. *)
Definition textless (p : page) : Prop :=
  match p with
  | Ok t => strip (or_empty t) = ""
  | Err _ => True
  end.

(** A string without white space at either end, and not empty. *)
Definition trimmed (s : string) : Prop :=
  s <> "" /\ lstrip s = s /\ rstrip s = s.

(** The job-description cues without [about the role]. *)
Definition jd_cues_short : list string :=
  ["responsibilities"; "requirements"; "qualifications"; "role";
   "what you'll do"].

(** A run in which everything succeeds and both texts are accepted. *)
Definition accepting_world : World :=
  sample_world (Some "sk-test") true (Ok jd_page) (Ok [Ok (Some cv_two_cues)])
    (Ok "# Fit").

(** A page without a body element. *)
Definition bodiless_page : soup :=
  [Tag "nav" [NavigableString " Home "]; NavigableString "Text"].

(** A scanned document: one page without text, one that cannot be read. *)
Definition scanned_pages : list page := [Ok None; Err "no text layer"; Ok (Some " ")].


Definition keyless_env : JobSearch.Env :=
  {| JobSearch.world :=
       sample_world None true (Ok sample_page) (Err "") (Ok "No listings.");
     JobSearch.new_client := fun _ _ => Err "api_key must be set" |}.

(** ** Strings: prefix, containment, stripping *)

Example lower_mixed_case :
  lower "HTTP://Company.com/JOBS" = "http://company.com/jobs".
Proof. reflexivity. Qed.

Example strip_both_ends :
  strip (" " ++ NL ++ "a b " ++ NL) = "a b" /\ strip (" " ++ NL) = "".
Proof. split; reflexivity. Qed.

Example contains_infix :
  contains "work" "networking" = true /\ contains "work" "w o r k" = false.
Proof. split; reflexivity. Qed.

Example join_lines : join NL ["a"; ""; "c"] = "a" ++ NL ++ NL ++ "c".
Proof. reflexivity. Qed.

Section StringFacts.

Lemma startswith_spec (s p : string) :
  startswith s p = true <-> exists q, s = p ++ q.
Proof.
  revert s; induction p as [|a p IH]; intros s; simpl.
  - split; [intros _; now exists s | reflexivity].
  - destruct s as [|b s]; simpl.
    + split; [discriminate | intros [q Hq]; discriminate].
    + rewrite andb_true_iff, Ascii.eqb_eq, IH. split.
      * intros [-> [q ->]]. now exists q.
      * intros [q Hq]. injection Hq as -> ->. split; [reflexivity | now exists q].
Qed.

Lemma contains_spec (sub s : string) :
  contains sub s = true <-> Substring sub s.
Proof.
  unfold Substring. induction s as [|c s IH]; simpl.
  - rewrite orb_false_r, startswith_spec. split.
    + intros [q Hq]. now exists "", q.
    + intros [p [q Hq]]. destruct p; simpl in Hq; [now exists q | discriminate].
  - rewrite orb_true_iff, startswith_spec, IH. split.
    + intros [[q Hq] | [p [q Hq]]].
      * now exists "", q.
      * exists (String c p), q. simpl. now rewrite Hq.
    + intros [p [q Hq]]. destruct p as [|d p]; simpl in Hq.
      * left. now exists q.
      * right. injection Hq as _ ->. now exists p, q.
Qed.

Lemma contains_false (sub s : string) :
  contains sub s = false <-> ~ Substring sub s.
Proof.
  rewrite <- contains_spec. destruct (contains sub s); split; congruence.
Qed.

Lemma append_assoc (a b c : string) : (a ++ b) ++ c = a ++ b ++ c.
Proof. induction a as [|x a IH]; simpl; [reflexivity | now rewrite IH]. Qed.

Lemma append_empty_r (a : string) : a ++ "" = a.
Proof. induction a as [|x a IH]; simpl; [reflexivity | now rewrite IH]. Qed.

Lemma Substring_refl (s : string) : Substring s s.
Proof. exists "", "". simpl. now rewrite append_empty_r. Qed.

Lemma Substring_empty (s : string) : Substring "" s.
Proof. now exists "", s. Qed.

Lemma Substring_trans (a b c : string) :
  Substring a b -> Substring b c -> Substring a c.
Proof.
  intros [p [q ->]] [p' [q' ->]]. exists (p' ++ p), (q ++ q').
  now rewrite !append_assoc.
Qed.

Lemma Substring_app_l (a s t : string) : Substring a s -> Substring a (s ++ t).
Proof.
  intros [p [q ->]]. exists p, (q ++ t). now rewrite !append_assoc.
Qed.

Lemma Substring_app_r (a s t : string) : Substring a t -> Substring a (s ++ t).
Proof.
  intros [p [q ->]]. exists (s ++ p), q. now rewrite !append_assoc.
Qed.

(** [lstrip] drops a prefix and stops at a character that is not a space. *)
Lemma lstrip_suffix (s : string) : exists p, s = p ++ lstrip s.
Proof.
  induction s as [|c s [p Hp]]; simpl.
  - now exists "".
  - destruct (isspace c).
    + exists (String c p). simpl. now rewrite <- Hp.
    + now exists "".
Qed.

Lemma lstrip_head (s : string) :
  lstrip s = "" \/ exists c r, lstrip s = String c r /\ isspace c = false.
Proof.
  induction s as [|c s IH]; simpl; [now left |].
  destruct (isspace c) eqn:E; [exact IH | right; now exists c, s].
Qed.

Lemma lstrip_app (p y : string) (c : ascii) (r : string) :
  y = String c r -> isspace c = false -> lstrip (p ++ y) = lstrip p ++ y.
Proof.
  intros -> Hc. induction p as [|d p IH]; simpl.
  - now rewrite Hc.
  - destruct (isspace d); [exact IH | reflexivity].
Qed.

(** [rstrip] drops a suffix. *)
Lemma rstrip_prefix (s : string) : exists q, s = rstrip s ++ q.
Proof.
  induction s as [|c s [q Hq]]; simpl.
  - now exists "".
  - destruct (rstrip s) as [|d r] eqn:E.
    + destruct (isspace c).
      * now exists (String c s).
      * exists s. reflexivity.
    + exists q. simpl in *. now rewrite <- Hq.
Qed.

Lemma rstrip_cons (c : ascii) (s : string) :
  isspace c = false -> rstrip (String c s) = String c (rstrip s).
Proof.
  intros Hc. simpl. destruct (rstrip s); [now rewrite Hc | reflexivity].
Qed.

Lemma rstrip_cons_nonempty (c : ascii) (s : string) :
  rstrip s <> "" -> rstrip (String c s) = String c (rstrip s).
Proof.
  intros Hs. simpl. destruct (rstrip s); [congruence | reflexivity].
Qed.

Lemma rstrip_idem (s : string) : rstrip (rstrip s) = rstrip s.
Proof.
  induction s as [|c s IH]; simpl; [reflexivity |].
  destruct (rstrip s) as [|d r] eqn:E.
  - destruct (isspace c) eqn:Ec; simpl; [reflexivity | now rewrite Ec].
  - rewrite rstrip_cons_nonempty; rewrite IH; [reflexivity | discriminate].
Qed.

Lemma rstrip_app_l (p z : string) :
  rstrip z <> "" -> rstrip (p ++ z) = p ++ rstrip z.
Proof.
  intros Hz. induction p as [|c p IH]; simpl; [reflexivity |].
  rewrite IH. destruct (p ++ rstrip z) eqn:E; [| reflexivity].
  destruct p; simpl in E; [congruence | discriminate].
Qed.

Lemma rstrip_app_r (y q : string) :
  y <> "" -> rstrip y = y -> rstrip (y ++ q) = y ++ rstrip q.
Proof.
  induction y as [|c y IH]; intros Hne Hy; [congruence |].
  destruct y as [|d y].
  - simpl in Hy. destruct (isspace c) eqn:Ec; [discriminate |].
    change (String c "" ++ q) with (String c q). now rewrite rstrip_cons.
  - assert (Hy' : rstrip (String d y) = String d y).
    { change (rstrip (String c (String d y)))
        with (match rstrip (String d y) with
              | "" => if isspace c then "" else String c ""
              | r => String c r
              end) in Hy.
      destruct (rstrip (String d y)) eqn:E.
      - destruct (isspace c); discriminate.
      - congruence. }
    change (String c (String d y) ++ q) with (String c (String d y ++ q)).
    rewrite rstrip_cons_nonempty; rewrite IH; try reflexivity;
      try discriminate; exact Hy'.
Qed.

(** Stripping keeps the stripped form of every substring. *)
Lemma strip_Substring (x s : string) :
  Substring x s -> Substring (strip x) (strip s).
Proof.
  intros Hxs. unfold strip.
  destruct (lstrip_head x) as [E | [c [r [E Hc]]]].
  - rewrite E. apply Substring_empty.
  - destruct (lstrip_suffix x) as [p0 Hp0].
    destruct (rstrip_prefix (lstrip x)) as [q0 Hq0].
    remember (rstrip (lstrip x)) as y eqn:Dy.
    assert (Ey : y = String c (rstrip r)).
    { rewrite Dy, E. now apply rstrip_cons. }
    assert (Hy : rstrip y = y) by (rewrite Dy; apply rstrip_idem).
    assert (Hne : y <> "") by (rewrite Ey; discriminate).
    destruct Hxs as [p [q ->]].
    assert (Hs : p ++ x ++ q = (p ++ p0) ++ y ++ (q0 ++ q)).
    { rewrite Hp0 at 1. rewrite Hq0 at 1. now rewrite !append_assoc. }
    rewrite Hs.
    assert (Hyq : y ++ q0 ++ q = String c (rstrip r ++ q0 ++ q)).
    { rewrite Ey. reflexivity. }
    rewrite (lstrip_app (p ++ p0) _ c _ Hyq Hc).
    rewrite rstrip_app_l; rewrite rstrip_app_r; try assumption.
    + exists (lstrip (p ++ p0)), (rstrip (q0 ++ q)). reflexivity.
    + destruct y; [congruence | discriminate].
Qed.

End StringFacts.

(** ** The PDF text extractor *)

Section PdfExtraction.

Variable w : World.

Lemma for_pages_run (pages : list page) (chunks : list string) (tr : trace) :
  for_pages pages chunks tr = (Return (chunks ++ kept_texts pages)%list, tr).
Proof.
  revert chunks; induction pages as [|p rest IH]; intros chunks; simpl.
  - unfold ret. now rewrite app_nil_r.
  - destruct p as [t | e]; unfold bind, try_except, extract_text; simpl;
      rewrite IH.
    + now rewrite <- app_assoc.
    + reflexivity.
Qed.

Lemma extract_pdf_text_run (path : string) (tr : trace) :
  extract_pdf_text w path tr =
  match pdf_pages w path with
  | Ok pages =>
      (Return (strip (join NL (kept_texts pages))), (tr ++ [OpenFile path])%list)
  | Err e => (Raise e, (tr ++ [OpenFile path])%list)
  end.
Proof.
  unfold extract_pdf_text, bind, emit. simpl.
  destruct (pdf_pages w path) as [pages | e]; simpl; [| reflexivity].
  now rewrite for_pages_run.
Qed.

End PdfExtraction.

(** C1, as the claim words it, fails: with one entry per page the three-page
    document whose second page faults would give two line feeds between the
    texts of pages 1 and 3; the extractor gives one. *)
Lemma extract_pdf_text_no_entry_for_faulting_page :
  fst (extract_pdf_text
         (sample_world None true (Err "") (Ok pages_middle_fault) (Err ""))
         "cv.pdf" [])
    = Return ("Page one" ++ NL ++ "Page three")
  /\ strip (join NL (entry_per_page pages_middle_fault))
     = "Page one" ++ NL ++ NL ++ "Page three"
  /\ "Page one" ++ NL ++ "Page three" <> "Page one" ++ NL ++ NL ++ "Page three".
Proof.
  repeat split; try reflexivity. discriminate.
Qed.

(** C1 (amended): when the file reads as a PDF, a page whose extraction
    raises is skipped and the document is not aborted: the call returns the
    line-feed join of one entry per page that did not raise, in document
    order, stripped.  On three pages of which only the second raises, the
    result is the stripped join of the texts of pages 1 and 3 and contains
    the stripped text of each. *)
Theorem extract_pdf_text_skips_faulting_pages
    (w : World) (path : string) (pages : list page) (tr : trace) :
  pdf_pages w path = Ok pages ->
  fst (extract_pdf_text w path tr) = Return (strip (join NL (kept_texts pages)))
  /\ (forall t1 e t3, pages = [Ok t1; Err e; Ok t3] ->
      exists r,
        fst (extract_pdf_text w path tr) = Return r
        /\ r = strip (or_empty t1 ++ NL ++ or_empty t3)
        /\ Substring (strip (or_empty t1)) r
        /\ Substring (strip (or_empty t3)) r).
Proof.
  intros Hp. rewrite extract_pdf_text_run, Hp. simpl. split; [reflexivity |].
  intros t1 e t3 ->. eexists. split; [reflexivity |].
  cbn [kept_texts flat_map app join String.concat].
  split; [reflexivity |]. split; apply strip_Substring.
  - apply Substring_app_l, Substring_refl.
  - apply Substring_app_r, Substring_app_r, Substring_refl.
Qed.

Lemma extract_pdf_text_skips_faulting_pages_witness :
  pdf_pages (sample_world None true (Err "") (Ok pages_middle_fault) (Err ""))
    "cv.pdf" = Ok pages_middle_fault
  /\ fst (extract_pdf_text
            (sample_world None true (Err "") (Ok pages_middle_fault) (Err ""))
            "cv.pdf" [])
     = Return (strip (join NL (kept_texts pages_middle_fault))).
Proof.
  split; [reflexivity |].
  apply (extract_pdf_text_skips_faulting_pages
           (sample_world None true (Err "") (Ok pages_middle_fault) (Err ""))
           "cv.pdf" pages_middle_fault []).
  reflexivity.
Defined.

(** ** The cue-counting classifiers *)

Section Classifiers.

Lemma sum_ones {A} (l : list A) :
  PyStr.sum (map (fun _ => 1%Z) l) = Z.of_nat (List.length l).
Proof.
  induction l as [|a l IH]; [reflexivity |].
  cbn [map PyStr.sum fold_right List.length]. fold (PyStr.sum (map (fun _ : A => 1%Z) l)).
  rewrite IH. lia.
Qed.

Lemma cue_count_present (cues : list string) (text : string) :
  cue_count cues text =
  Z.of_nat (List.length (filter (fun c => contains c (lower text)) cues)).
Proof. unfold cue_count. apply sum_ones. Qed.

(** Two duplicate-free lists with the same members have the same length. *)
Lemma same_members_same_length {A} (l l' : list A) :
  NoDup l -> NoDup l' -> (forall x, In x l <-> In x l') ->
  List.length l = List.length l'.
Proof.
  intros Hl Hl' H. apply Nat.le_antisymm; apply NoDup_incl_length;
    try assumption; intros x Hx; now apply H.
Qed.

Lemma cue_count_distinct (cues present : list string) (text : string) :
  NoDup cues -> NoDup present ->
  (forall c, In c present <-> In c cues /\ Substring c (lower text)) ->
  cue_count cues text = Z.of_nat (List.length present).
Proof.
  intros Hc Hp H. rewrite cue_count_present. f_equal.
  apply same_members_same_length; [now apply NoDup_filter | assumption |].
  intros c. rewrite filter_In, contains_spec. symmetry. apply H.
Qed.

(** The cue words that occur always make such a list. *)
Lemma cues_present_exist (cues : list string) (text : string) :
  NoDup cues ->
  exists present,
    NoDup present
    /\ forall c, In c present <-> In c cues /\ Substring c (lower text).
Proof.
  intros Hc. exists (filter (fun c => contains c (lower text)) cues).
  split; [now apply NoDup_filter |].
  intros c. now rewrite filter_In, contains_spec.
Qed.

Lemma cv_cues_NoDup : NoDup cv_cues.
Proof.
  unfold cv_cues. repeat constructor; simpl; intuition discriminate.
Qed.

Lemma jd_cues_NoDup : NoDup jd_cues.
Proof.
  unfold jd_cues. repeat constructor; simpl; intuition discriminate.
Qed.

Lemma short_is_rejected (text : string) :
  (len text < 500)%Z ->
  (negb (truthy text) || (len text <? 500)%Z) = true.
Proof.
  intros H. apply Z.ltb_lt in H. rewrite H. apply orb_true_r.
Qed.

Lemma long_is_scored (text : string) :
  (500 <= len text)%Z ->
  (negb (truthy text) || (len text <? 500)%Z) = false.
Proof.
  intros H. destruct text as [|c t]; [unfold len in H; simpl in H; lia |].
  simpl. now apply Z.ltb_ge.
Qed.

Lemma looks_like_cv_short (text : string) :
  (len text < 500)%Z -> looks_like_cv text = false.
Proof. intros H. unfold looks_like_cv. now rewrite short_is_rejected. Qed.

Lemma looks_like_job_description_short (text : string) :
  (len text < 500)%Z -> looks_like_job_description text = false.
Proof.
  intros H. unfold looks_like_job_description. now rewrite short_is_rejected.
Qed.

Lemma looks_like_cv_long (text : string) :
  (500 <= len text)%Z ->
  looks_like_cv text = (2 <=? cue_count cv_cues text)%Z.
Proof. intros H. unfold looks_like_cv. now rewrite long_is_scored. Qed.

Lemma looks_like_job_description_long (text : string) :
  (500 <= len text)%Z ->
  looks_like_job_description text = (1 <=? cue_count jd_cues text)%Z.
Proof.
  intros H. unfold looks_like_job_description. now rewrite long_is_scored.
Qed.

End Classifiers.

(** C2: a text shorter than 500 characters, the empty one included, is
    rejected by the CV classifier and by the job-description classifier,
    whatever cue words it holds. *)
Theorem classifiers_reject_short_text (text : string) :
  (len text < 500)%Z ->
  looks_like_cv text = false /\ looks_like_job_description text = false.
Proof.
  intros H. split.
  - now apply looks_like_cv_short.
  - now apply looks_like_job_description_short.
Qed.

Lemma classifiers_reject_short_text_witness :
  (len short_with_cues < 500)%Z
  /\ contains "experience" (lower short_with_cues) = true
  /\ contains "role" (lower short_with_cues) = true
  /\ looks_like_cv short_with_cues = false
  /\ looks_like_job_description short_with_cues = false.
Proof.
  split; [reflexivity |]. split; [reflexivity |]. split; [reflexivity |].
  apply (classifiers_reject_short_text short_with_cues). reflexivity.
Defined.

(** C3: on a text of at least 500 characters the CV classifier answers true
    exactly when at least two distinct words of its vocabulary occur in the
    lower-cased text: [present] is any duplicate-free list of the cue words
    that occur.  With none or one it answers false, with exactly two true. *)
Theorem looks_like_cv_iff_two_cues (text : string) (present : list string) :
  (500 <= len text)%Z ->
  NoDup present ->
  (forall c, In c present <->
             In c ["experience"; "education"; "skills"; "projects";
                   "summary"; "work"; "certification"]
             /\ Substring c (lower text)) ->
  (looks_like_cv text = true <-> 2 <= List.length present)
  /\ (List.length present <= 1 -> looks_like_cv text = false)
  /\ (List.length present = 2 -> looks_like_cv text = true).
Proof.
  intros Hlen Hnd Hmem.
  rewrite (looks_like_cv_long text Hlen).
  rewrite (cue_count_distinct cv_cues present text cv_cues_NoDup Hnd Hmem).
  repeat split.
  - intros H. apply Z.leb_le in H. lia.
  - intros H. apply Z.leb_le. lia.
  - intros H. apply Z.leb_gt. lia.
  - intros H. apply Z.leb_le. lia.
Qed.

Lemma looks_like_cv_iff_two_cues_witness :
  (500 <= len cv_two_cues)%Z /\ looks_like_cv cv_two_cues = true.
Proof.
  split; [vm_compute; discriminate |].
  apply (looks_like_cv_iff_two_cues cv_two_cues ["experience"; "education"]).
  - vm_compute; discriminate.
  - repeat constructor; simpl; intuition discriminate.
  - intros c. split.
    + intros [<- | [<- | []]]; (split; [simpl; tauto | apply contains_spec; vm_compute; reflexivity]).
    + intros [Hin Hsub]. apply contains_spec in Hsub. simpl in Hin.
      repeat (destruct Hin as [<- | Hin];
              [first [now left | now (right; left) | vm_compute in Hsub; discriminate] |]).
      destruct Hin.
  - reflexivity.
Defined.

(** C4: on a text of at least 500 characters the job-description classifier
    answers true exactly when at least one word of its vocabulary occurs in
    the lower-cased text; with none it answers false, with exactly one
    true. *)
Theorem looks_like_job_description_iff_one_cue
    (text : string) (present : list string) :
  (500 <= len text)%Z ->
  NoDup present ->
  (forall c, In c present <->
             In c ["responsibilities"; "requirements"; "qualifications";
                   "role"; "about the role"; "what you'll do"]
             /\ Substring c (lower text)) ->
  (looks_like_job_description text = true <-> 1 <= List.length present)
  /\ (looks_like_job_description text = true <->
      exists c, In c jd_cues /\ Substring c (lower text))
  /\ (List.length present = 0 -> looks_like_job_description text = false)
  /\ (List.length present = 1 -> looks_like_job_description text = true).
Proof.
  intros Hlen Hnd Hmem.
  rewrite (looks_like_job_description_long text Hlen).
  rewrite (cue_count_distinct jd_cues present text jd_cues_NoDup Hnd Hmem).
  assert (Hex : 1 <= List.length present <->
                exists c, In c jd_cues /\ Substring c (lower text)).
  { split.
    - destruct present as [|c l]; simpl; [lia |]. intros _.
      exists c. apply Hmem. now left.
    - intros [c Hc]. apply Hmem in Hc. destruct present; [destruct Hc | simpl; lia]. }
  repeat split.
  - intros H. apply Z.leb_le in H. lia.
  - intros H. apply Z.leb_le. lia.
  - intros H. apply Hex. apply Z.leb_le in H. lia.
  - intros H. apply Hex in H. apply Z.leb_le. lia.
  - intros H. apply Z.leb_gt. lia.
  - intros H. apply Z.leb_le. lia.
Qed.

Lemma looks_like_job_description_iff_one_cue_witness :
  (500 <= len jd_one_cue)%Z /\ looks_like_job_description jd_one_cue = true.
Proof.
  split; [vm_compute; discriminate |].
  apply (looks_like_job_description_iff_one_cue jd_one_cue ["requirements"]).
  - vm_compute; discriminate.
  - repeat constructor; simpl; intuition discriminate.
  - intros c. split.
    + intros [<- | []]; (split; [simpl; tauto | apply contains_spec; vm_compute; reflexivity]).
    + intros [Hin Hsub]. apply contains_spec in Hsub. simpl in Hin.
      repeat (destruct Hin as [<- | Hin];
              [first [now left | vm_compute in Hsub; discriminate] |]).
      destruct Hin.
  - reflexivity.
Defined.

(** ** The URL plausibility check *)

Section UrlCheck.

Lemma re_match_scheme_spec (s : string) :
  re_match_scheme s = true <->
  (exists rest, s = "http://" ++ rest) \/ (exists rest, s = "https://" ++ rest).
Proof.
  unfold re_match_scheme. now rewrite orb_true_iff, !startswith_spec.
Qed.

Lemma or_empty_Some (u : string) : or_empty (Some u) = u.
Proof. now destruct u. Qed.

Lemma is_probable_job_url_Some (u : string) :
  is_probable_job_url (Some u) =
  Ok (re_match_scheme u && any (fun h => contains h (lower u)) url_hints).
Proof.
  unfold is_probable_job_url. rewrite or_empty_Some.
  now destruct (re_match_scheme u).
Qed.

(** The sixth hint of the program, [/positions/], adds nothing to the
    fourth. *)
Lemma url_hints_path_hints (s : string) :
  any (fun h => contains h s) url_hints = true <->
  exists h, In h path_hints /\ Substring h s.
Proof.
  unfold any. rewrite existsb_exists. split.
  - intros [h [Hin Hc]]. apply contains_spec in Hc.
    unfold url_hints in Hin. simpl in Hin.
    destruct Hin as [<- | [<- | [<- | [<- | [<- | [<- | []]]]]]];
      try (eexists; split; [| exact Hc]; simpl; tauto).
    exists "/positions". split; [simpl; tauto |].
    eapply Substring_trans; [| exact Hc]. now exists "", "/".
  - intros [h [Hin Hs]]. exists h. split; [| now apply contains_spec].
    unfold path_hints in Hin. unfold url_hints. simpl in *. tauto.
Qed.

Lemma is_probable_job_url_total (url : option string) :
  exists b, is_probable_job_url url = Ok b.
Proof.
  destruct url as [u |].
  - rewrite is_probable_job_url_Some. eauto.
  - now exists false.
Qed.

End UrlCheck.

(** C5: the URL check answers true only if (indeed exactly when) the string
    begins with [http://] or [https://] and its lower-cased form contains one
    of [/jobs], [/careers], [/job/], [/positions], [/openings]; the three
    sample URLs give true, false and false. *)
Theorem is_probable_job_url_scheme_and_hint :
  (forall url : option string,
      is_probable_job_url url = Ok true <->
      exists u, url = Some u
        /\ ((exists rest, u = "http://" ++ rest)
            \/ (exists rest, u = "https://" ++ rest))
        /\ exists h,
             In h ["/jobs"; "/careers"; "/job/"; "/positions"; "/openings"]
             /\ Substring h (lower u))
  /\ is_probable_job_url (Some "https://company.com/careers/123") = Ok true
  /\ is_probable_job_url (Some "https://company.com/about") = Ok false
  /\ is_probable_job_url (Some "ftp://company.com/jobs") = Ok false.
Proof.
  split; [| repeat split; reflexivity].
  intros [u |].
  - rewrite is_probable_job_url_Some. split.
    + intros H. injection H as H. apply andb_true_iff in H as [Hs Hh].
      exists u. split; [reflexivity |]. split.
      * now apply re_match_scheme_spec.
      * now apply url_hints_path_hints.
    + intros [u' [Hu [Hs Hh]]]. injection Hu as <-. f_equal.
      apply andb_true_iff. split.
      * now apply re_match_scheme_spec.
      * now apply url_hints_path_hints.
  - split; [discriminate | intros [u [Hu _]]; discriminate].
Qed.

Lemma is_probable_job_url_scheme_and_hint_witness :
  is_probable_job_url (Some "https://company.com/Careers/123") = Ok true
  /\ exists h, In h path_hints
               /\ Substring h (lower "https://company.com/Careers/123").
Proof.
  split; [reflexivity |].
  destruct (proj1 (proj1 is_probable_job_url_scheme_and_hint
                     (Some "https://company.com/Careers/123")) eq_refl)
    as [u [Hu [_ Hh]]].
  injection Hu as <-. exact Hh.
Defined.

(** C10: the scheme is tested on the URL as written and only the path hints
    on its lower-cased form: [HTTP://company.com/jobs], whose lower-cased
    form has the scheme and the hint [/jobs], gives false.  The empty string
    and [None] give false, and the check raises on no input. *)
Theorem is_probable_job_url_scheme_case_sensitive :
  (is_probable_job_url (Some "HTTP://company.com/jobs") = Ok false
   /\ lower "HTTP://company.com/jobs" = "http://company.com/jobs"
   /\ re_match_scheme (lower "HTTP://company.com/jobs") = true
   /\ Substring "/jobs" (lower "HTTP://company.com/jobs")
   /\ is_probable_job_url (Some (lower "HTTP://company.com/jobs")) = Ok true)
  /\ is_probable_job_url (Some "") = Ok false
  /\ is_probable_job_url None = Ok false
  /\ (forall url : option string, exists b, is_probable_job_url url = Ok b).
Proof.
  repeat split; try reflexivity.
  - apply contains_spec. reflexivity.
  - apply is_probable_job_url_total.
Qed.

(** ** The prompt assembler *)

Lemma length_app (a b : string) :
  String.length (a ++ b) = String.length a + String.length b.
Proof. induction a as [|c a IH]; simpl; [reflexivity | now rewrite IH]. Qed.

(** C8: the prompt is a function of the three texts alone; it holds the
    labels [Job Posting:], [CV:] and [Url:] in this order, each followed by
    its text as given, so that job text, CV text and URL occur in this order;
    nothing is cut or escaped: the prompt is 28 characters longer than the
    three texts together. *)
Theorem build_user_prompt_sections (job_text cv_text url : string) :
  (exists a b c d e f g,
      build_user_prompt job_text cv_text url =
      a ++ "Job Posting:" ++ b ++ job_text ++ c ++ "CV:" ++ d ++ cv_text
        ++ e ++ "Url:" ++ f ++ url ++ g
      /\ b = NL /\ d = NL /\ f = NL)
  /\ String.length (build_user_prompt job_text cv_text url)
     = String.length job_text + String.length cv_text + String.length url + 28.
Proof.
  split.
  - exists NL, NL, (NL ++ NL), NL, (NL ++ NL), NL, NL.
    unfold build_user_prompt. now rewrite !append_assoc.
  - unfold build_user_prompt. rewrite !length_app. simpl. lia.
Qed.

(** ** The HTML text extractor *)

Section HtmlExtraction.

Lemma node_rect_nested (P : node -> Prop) :
  (forall s, P (NavigableString s)) ->
  (forall s, P (Special s)) ->
  (forall nm kids, Forall P kids -> P (Tag nm kids)) ->
  forall n, P n.
Proof.
  intros Hs Hc Ht. fix IH 1. intros [s | s | nm kids].
  - apply Hs.
  - apply Hc.
  - apply Ht. induction kids as [|k r IHr]; constructor; [apply IH | exact IHr].
Qed.

Lemma decompose_all_Tag (names : list string) (nm : string) (kids : list node) :
  decompose_all names (Tag nm kids) = Tag nm (decompose_list names kids).
Proof.
  simpl. f_equal. induction kids as [|k r IH]; simpl; [reflexivity |].
  now rewrite IH.
Qed.

Lemma strings_outside_cut (names : list string) (n : node) :
  tag_in names n = true -> strings_outside names n = [].
Proof.
  destruct n as [s | s | nm kids]; simpl; try discriminate.
  now intros ->.
Qed.

(** Cutting the named tags out and then collecting the strings gives the
    strings that lie below none of them. *)
Lemma all_strings_decompose_all (names : list string) (n : node) :
  tag_in names n = false ->
  all_strings (decompose_all names n) = strings_outside names n.
Proof.
  induction n as [s | s | nm kids IH] using node_rect_nested; intros Hn.
  - reflexivity.
  - reflexivity.
  - rewrite decompose_all_Tag. simpl in Hn. simpl. rewrite Hn. clear Hn.
    induction IH as [|k r Hk _ IHr]; simpl; [reflexivity |].
    destruct (tag_in names k) eqn:Ek.
    + now rewrite (strings_outside_cut names k Ek), IHr.
    + simpl. now rewrite (Hk eq_refl), IHr.
Qed.

Lemma find_node_named (name : string) (n x : node) :
  find_node name n = Some x -> exists kids, x = Tag name kids.
Proof.
  induction n as [s | s | nm kids IH] using node_rect_nested; simpl;
    try discriminate.
  destruct (String.eqb nm name) eqn:E.
  - apply String.eqb_eq in E. subst nm. intros H. injection H as <-. eauto.
  - induction IH as [|k r Hk _ IHr]; [discriminate |].
    destruct (find_node name k) eqn:Ek.
    + intros H. injection H as ->. now apply Hk.
    + exact IHr.
Qed.

Lemma find_named (name : string) (l : list node) (x : node) :
  find name l = Some x -> exists kids, x = Tag name kids.
Proof.
  induction l as [|k r IH]; simpl; [discriminate |].
  destruct (find_node name k) eqn:Ek.
  - intros H. injection H as ->. eapply find_node_named; eassumption.
  - exact IH.
Qed.

Lemma soup_text_body (sp : soup) (kids : list node) :
  find "body" sp = Some (Tag "body" kids) ->
  soup_text sp =
  join NL (fragments (flat_map (strings_outside irrelevant_tags) kids)).
Proof.
  intros H. unfold soup_text. rewrite H. unfold get_text, fragments.
  now rewrite all_strings_decompose_all.
Qed.

Lemma lstrip_rstrip_lstrip (s : string) :
  lstrip (rstrip (lstrip s)) = rstrip (lstrip s).
Proof.
  destruct (lstrip_head s) as [E | [c [r [E Hc]]]]; rewrite E; [reflexivity |].
  rewrite (rstrip_cons c r Hc). simpl. now rewrite Hc.
Qed.

Lemma strip_idem (s : string) : strip (strip s) = strip s.
Proof.
  unfold strip. now rewrite lstrip_rstrip_lstrip, rstrip_idem.
Qed.

Lemma fragments_stripped (l : list string) :
  Forall (fun f => strip f = f /\ f <> "") (fragments l).
Proof.
  unfold fragments. apply Forall_forall. intros f Hf.
  apply filter_In in Hf as [Hin Ht]. apply in_map_iff in Hin as [s [<- _]].
  split; [apply strip_idem |]. intros E. now rewrite E in Ht.
Qed.

Lemma fetch_job_text_run (w : World) (url : string) (timeout : Z) (tr : trace) :
  fetch_job_text w url timeout tr =
  match requests_get w url with
  | Ok sp => (Return (soup_title sp, soup_text sp),
              (tr ++ [HttpGet url timeout])%list)
  | Err e => (Raise e, (tr ++ [HttpGet url timeout])%list)
  end.
Proof.
  unfold fetch_job_text, bind, emit. simpl.
  now destruct (requests_get w url).
Qed.

End HtmlExtraction.

(** C9: when the fetched page has a body, the text returned is made of the
    rendered strings of the body that lie below no script, style, img, input,
    nav, footer, header, noscript, svg, button or form tag, each stripped,
    the empty ones dropped, joined by line feeds.  For a body with a nav
    block [Home About] and a content block [Job Description Here] the text is
    [Job Description Here] and does not contain [Home About]. *)
Theorem fetch_job_text_drops_irrelevant_tags
    (w : World) (url : string) (timeout : Z) (tr : trace)
    (sp : soup) (body : node) :
  requests_get w url = Ok sp ->
  find "body" sp = Some body ->
  exists title text kids,
    body = Tag "body" kids
    /\ fst (fetch_job_text w url timeout tr) = Return (title, text)
    /\ text =
       join NL
         (fragments
            (flat_map
               (strings_outside
                  ["script"; "style"; "img"; "input"; "nav"; "footer";
                   "header"; "noscript"; "svg"; "button"; "form"])
               kids))
    /\ Forall (fun f => strip f = f /\ f <> "")
         (fragments
            (flat_map
               (strings_outside
                  ["script"; "style"; "img"; "input"; "nav"; "footer";
                   "header"; "noscript"; "svg"; "button"; "form"])
               kids))
    /\ (kids = nav_and_content ->
        text = "Job Description Here"
        /\ Substring "Job Description Here" text
        /\ ~ Substring "Home About" text).
Proof.
  intros Hget Hbody.
  destruct (find_named _ _ _ Hbody) as [kids ->].
  exists (soup_title sp), (soup_text sp), kids.
  split; [reflexivity |]. split; [now rewrite fetch_job_text_run, Hget |].
  split; [now apply soup_text_body |]. split; [apply fragments_stripped |].
  intros ->. rewrite (soup_text_body sp _ Hbody).
  split; [reflexivity |]. split.
  - apply contains_spec. reflexivity.
  - apply contains_false. reflexivity.
Qed.

Lemma fetch_job_text_drops_irrelevant_tags_witness :
  find "body" sample_page = Some (Tag "body" nav_and_content)
  /\ exists title text,
       fst (fetch_job_text
              (sample_world None true (Ok sample_page) (Err "") (Err ""))
              "https://company.com/careers/123" 25 [])
       = Return (title, text)
       /\ Substring "Job Description Here" text
       /\ ~ Substring "Home About" text.
Proof.
  split; [reflexivity |].
  destruct (fetch_job_text_drops_irrelevant_tags
              (sample_world None true (Ok sample_page) (Err "") (Err ""))
              "https://company.com/careers/123" 25 []
              sample_page (Tag "body" nav_and_content) eq_refl eq_refl)
    as [title [text [kids [Hk [Hrun [_ [_ Hex]]]]]]].
  exists title, text. split; [exact Hrun |].
  injection Hk as <-. apply Hex. reflexivity.
Defined.

(** ** The program *)

Lemma notice_trace_no_call (url : string) (e : event) :
  In e (notice_trace url) -> e = Stdout notice.
Proof.
  unfold notice_trace. destruct (_ && _); simpl; [tauto |].
  intros [<- | []]. reflexivity.
Qed.

(** An event that is not among those the run has produced. *)
Ltac not_in_events H :=
  try (apply in_app_or in H as [H | H];
       [apply notice_trace_no_call in H; discriminate |]);
  simpl in H; intuition discriminate.

Section Program.

Variable w : World.
Variable args : Args.

(** The run of [main], case by case, in the order the program asks the
    world. *)
Lemma run_unfold :
  run w args =
  if negb (is_set (getenv w "OPENAI_API_KEY")) then
    (SysExit 2,
     [Stderr "[error] OPENAI_API_KEY not set. Put it in a .env or environment."])
  else
    let tr0 := notice_trace (job_url args) in
    if negb (path_exists w (cv args)) then
      (SysExit 2,
       (tr0 ++ [Stderr ("[error] CV file not found: " ++ cv args)])%list)
    else
      match requests_get w (job_url args) with
      | Err e =>
          (SysExit 1,
           (tr0 ++ [HttpGet (job_url args) 25;
                    Stderr ("[error] Failed to fetch job posting: " ++ e)])%list)
      | Ok sp =>
          match pdf_pages w (cv args) with
          | Err e =>
              (SysExit 1,
               (tr0 ++ [HttpGet (job_url args) 25; OpenFile (cv args);
                        Stderr ("[error] Failed to extract CV: " ++ e)])%list)
          | Ok pages =>
              let job_text := soup_text sp in
              let cv_text := strip (join NL (kept_texts pages)) in
              let msgs := messages_for job_text cv_text (job_url args) in
              if negb (looks_like_job_description job_text)
                 || negb (looks_like_cv cv_text)
              then
                (SysExit 0,
                 (tr0 ++ [HttpGet (job_url args) 25; OpenFile (cv args);
                          Stdout generic])%list)
              else
                match chat_create w (model args) msgs with
                | Err e =>
                    (SysExit 1,
                     (tr0 ++ [HttpGet (job_url args) 25; OpenFile (cv args);
                              ChatCreate (model args) msgs;
                              Stderr ("[error] OpenAI API error: " ++ e)])%list)
                | Ok content =>
                    (Return tt,
                     (tr0 ++ [HttpGet (job_url args) 25; OpenFile (cv args);
                              ChatCreate (model args) msgs;
                              Stdout content])%list)
                end
          end
      end.
Proof.
  unfold run, main.
  destruct (is_set (getenv w "OPENAI_API_KEY")); [| reflexivity].
  cbn [negb when]. unfold bind at 1. cbn [ret].
  rewrite is_probable_job_url_Some. unfold bind at 1. cbn [lift ret].
  unfold notice_trace, notice.
  set (probable := re_match_scheme (job_url args)
                   && any (fun h => contains h (lower (job_url args))) url_hints).
  assert (Hn : forall (k : Proc unit),
             (when (negb probable) (print "[notice] The provided URL doesn't look like a typical job posting. The assistant may decline to analyze.") ;;; k) []
             = k (if probable then [] else [Stdout "[notice] The provided URL doesn't look like a typical job posting. The assistant may decline to analyze."])).
  { intros k. now destruct probable. }
  rewrite Hn. clear Hn.
  generalize (if probable then []
              else [Stdout "[notice] The provided URL doesn't look like a typical job posting. The assistant may decline to analyze."]).
  intros tr0. cbn zeta.
  destruct (path_exists w (cv args)); [| reflexivity].
  cbn [negb when]. unfold bind at 1. cbn [ret].
  unfold bind at 1, try_except at 1. rewrite fetch_job_text_run.
  destruct (requests_get w (job_url args)) as [sp | e].
  2:{ unfold bind, print_err, emit, sys_exit. now rewrite <- app_assoc. }
  cbn [snd]. unfold bind at 1, try_except at 1. rewrite extract_pdf_text_run.
  destruct (pdf_pages w (cv args)) as [pages | e].
  2:{ unfold bind, print_err, emit, sys_exit. now rewrite <- !app_assoc. }
  destruct (negb (looks_like_job_description (soup_text sp))
            || negb (looks_like_cv (strip (join NL (kept_texts pages))))).
  { unfold when, bind, print, emit, sys_exit. now rewrite <- !app_assoc. }
  unfold when at 1. unfold bind at 1. cbn [ret].
  unfold bind at 1, try_except, chat_completions_create, messages_for.
  unfold bind at 1, emit.
  destruct (chat_create w (model args) _) as [content | e].
  - unfold lift, ret, print, emit. now rewrite <- !app_assoc.
  - unfold lift, raise, bind, print_err, emit, sys_exit. now rewrite <- !app_assoc.
Qed.

(** A run that reaches the classifiers and is turned down by one of them. *)
Lemma run_rejected (sp : soup) (pages : list page) :
  is_set (getenv w "OPENAI_API_KEY") = true ->
  path_exists w (cv args) = true ->
  requests_get w (job_url args) = Ok sp ->
  pdf_pages w (cv args) = Ok pages ->
  looks_like_job_description (soup_text sp) = false
  \/ looks_like_cv (strip (join NL (kept_texts pages))) = false ->
  rejected w args.
Proof.
  intros Hk Hp Hf Hx Hrej.
  assert (Hb : negb (looks_like_job_description (soup_text sp))
               || negb (looks_like_cv (strip (join NL (kept_texts pages))))
               = true).
  { destruct Hrej as [-> | ->]; [reflexivity | apply orb_true_r]. }
  unfold rejected, status, events. rewrite run_unfold, Hk, Hp, Hf, Hx.
  cbn zeta. rewrite Hb. cbn [negb fst snd exit_status].
  split; [reflexivity |]. split; [reflexivity |]. split.
  - exists (notice_trace (job_url args) ++
            [HttpGet (job_url args) 25; OpenFile (cv args)])%list.
    now rewrite <- app_assoc.
  - intros m msgs Hin. apply in_app_or in Hin as [Hin | Hin].
    + apply notice_trace_no_call in Hin. discriminate.
    + not_in_events Hin.
Qed.

End Program.

(** C6: a run that has its credential and its CV file, fetches a job text and
    extracts a CV text, and in which the job-description classifier or the CV
    classifier answers false, prints the guidance message, exits with status
    0 and never calls the model; so does every run whose CV text has 50
    characters, however well-formed the job description. *)
Theorem main_rejection_short_circuits
    (w : World) (args : Args) (title job_text cv_text : string)
    (tr1 tr2 : trace) :
  is_set (getenv w "OPENAI_API_KEY") = true ->
  path_exists w (cv args) = true ->
  fst (fetch_job_text w (job_url args) 25 tr1) = Return (title, job_text) ->
  fst (extract_pdf_text w (cv args) tr2) = Return cv_text ->
  (looks_like_job_description job_text = false
   \/ looks_like_cv cv_text = false ->
   rejected w args)
  /\ (String.length cv_text = 50 ->
      looks_like_job_description job_text = true ->
      rejected w args).
Proof.
  intros Hk Hp Hf Hx.
  rewrite fetch_job_text_run in Hf. rewrite extract_pdf_text_run in Hx.
  destruct (requests_get w (job_url args)) as [sp | e] eqn:Ef; [| discriminate].
  destruct (pdf_pages w (cv args)) as [pages | e] eqn:Ex; [| discriminate].
  simpl in Hf, Hx. injection Hf as _ <-. injection Hx as <-.
  split.
  - intros Hrej. now apply (run_rejected w args sp pages).
  - intros Hlen _. apply (run_rejected w args sp pages); try assumption.
    right. apply looks_like_cv_short. unfold len. lia.
Qed.

Lemma main_rejection_short_circuits_witness :
  String.length cv_50 = 50
  /\ looks_like_job_description (soup_text jd_page) = true
  /\ rejected short_cv_world sample_args.
Proof.
  split; [reflexivity |]. split; [vm_compute; reflexivity |].
  apply (main_rejection_short_circuits short_cv_world sample_args
           "Engineer" (soup_text jd_page) cv_50 [] []);
    vm_compute; reflexivity.
Defined.

(** C7: the exit status of a run.  It is 2 when the credential is missing or
    the CV path does not exist (and only then); 1 when the fetch of the job
    posting, the reading of the PDF or the call of the model was attempted
    and raised (and only then); 0 when the model answered or a classifier
    turned the texts down; and never anything else. *)
Theorem main_exit_codes (w : World) (args : Args) :
  (is_set (getenv w "OPENAI_API_KEY") = false
   \/ path_exists w (cv args) = false
   <-> status w args = 2%Z)
  /\ ((exists e, In (HttpGet (job_url args) 25) (events w args)
                 /\ requests_get w (job_url args) = Err e)
      \/ (exists e, In (OpenFile (cv args)) (events w args)
                    /\ pdf_pages w (cv args) = Err e)
      \/ (exists m msgs e, In (ChatCreate m msgs) (events w args)
                           /\ chat_create w m msgs = Err e)
      <-> status w args = 1%Z)
  /\ ((exists m msgs content,
          In (ChatCreate m msgs) (events w args)
          /\ chat_create w m msgs = Ok content
          /\ fst (run w args) = Return tt
          /\ exists tr, events w args = (tr ++ [Stdout content])%list)
      \/ rejected w args
      <-> status w args = 0%Z)
  /\ (status w args = 0 \/ status w args = 1 \/ status w args = 2)%Z.
Proof.
  pose proof (run_unfold w args) as Hr.
  unfold status, events.
  destruct (is_set (getenv w "OPENAI_API_KEY")) eqn:Hk; cbn [negb] in Hr.
  2:{ rewrite Hr. cbn [fst snd exit_status]. split; [tauto |].
      split; [| split; [| lia]]; (split; [| discriminate]).
      - intros [[e [H _]] | [[e [H _]] | [m [msgs [e [H _]]]]]]; not_in_events H.
      - intros [[m [msgs [c [H _]]]] | [H _]];
          [not_in_events H | rewrite Hr in H; discriminate]. }
  cbn zeta in Hr.
  destruct (path_exists w (cv args)) eqn:Hp; cbn [negb] in Hr.
  2:{ rewrite Hr. cbn [fst snd exit_status]. split; [tauto |].
      split; [| split; [| lia]]; (split; [| discriminate]).
      - intros [[e [H _]] | [[e [H _]] | [m [msgs [e [H _]]]]]]; not_in_events H.
      - intros [[m [msgs [c [H _]]]] | [H _]];
          [not_in_events H | rewrite Hr in H; discriminate]. }
  destruct (requests_get w (job_url args)) as [sp | e] eqn:Hf.
  2:{ rewrite Hr. cbn [fst snd exit_status].
      split; [split; [intros [H | H] |]; discriminate |].
      split; [| split; [| lia]]; split; try discriminate.
      - reflexivity.
      - intros _. left. exists e. split; [| reflexivity].
        apply in_or_app. right. now left.
      - intros [[m [msgs [c [_ [_ [H _]]]]]] | [H _]];
          try rewrite Hr in H; discriminate. }
  destruct (pdf_pages w (cv args)) as [pages | e] eqn:Hx.
  2:{ rewrite Hr. cbn [fst snd exit_status].
      split; [split; [intros [H | H] |]; discriminate |].
      split; [| split; [| lia]]; split; try discriminate.
      - reflexivity.
      - intros _. right. left. exists e. split; [| reflexivity].
        apply in_or_app. right. right. now left.
      - intros [[m [msgs [c [_ [_ [H _]]]]]] | [H _]];
          try rewrite Hr in H; discriminate. }
  destruct (negb (looks_like_job_description (soup_text sp))
            || negb (looks_like_cv (strip (join NL (kept_texts pages)))))
    eqn:Hb.
  { rewrite Hr. cbn [fst snd exit_status].
    split; [split; [intros [H | H] |]; discriminate |].
    split; [| split; [| lia]]; split; try discriminate.
    - intros [[e [_ H]] | [[e [_ H]] | [m [msgs [e [H _]]]]]];
        try discriminate. not_in_events H.
    - reflexivity.
    - intros _. right. apply (run_rejected w args sp pages Hk Hp Hf Hx).
      apply orb_true_iff in Hb as [Hb | Hb]; apply negb_true_iff in Hb; tauto. }
  cbn zeta in Hr.
  destruct (chat_create w (model args) _) as [content | e] eqn:Hc;
    rewrite Hr; cbn [fst snd exit_status].
  - split; [split; [intros [H | H] |]; discriminate |].
    split; [| split; [| lia]]; split; try discriminate.
    + intros [[e [_ H]] | [[e [_ H]] | [m [msgs [e [H He]]]]]];
        try discriminate.
      apply in_app_or in H as [H | H];
        [apply notice_trace_no_call in H; discriminate |].
      simpl in H. destruct H as [H | [H | [H | [H | []]]]]; try discriminate.
      injection H as <- <-. congruence.
    + reflexivity.
    + intros _. left. eexists _, _, content. split; [| split; [exact Hc |]].
      * apply in_or_app. right. simpl. tauto.
      * split; [reflexivity |].
        exists (notice_trace (job_url args) ++
                [HttpGet (job_url args) 25; OpenFile (cv args);
                 ChatCreate (model args)
                   (messages_for (soup_text sp)
                      (strip (join NL (kept_texts pages))) (job_url args))])%list.
        now rewrite <- app_assoc.
  - split; [split; [intros [H | H] |]; discriminate |].
    split; [| split; [| lia]]; split; try discriminate.
    + reflexivity.
    + intros _. right. right. eexists _, _, e. split; [| exact Hc].
      apply in_or_app. right. simpl. tauto.
    + intros [[m [msgs [c [_ [_ [H _]]]]]] | [H _]];
        try rewrite Hr in H; discriminate.
Qed.

Lemma main_exit_codes_witness :
  status short_cv_world sample_args = 0%Z
  /\ status (sample_world None true (Ok jd_page) (Ok []) (Err "")) sample_args
     = 2%Z
  /\ status (sample_world (Some "sk-test") true (Err "timeout") (Ok [])
               (Err "")) sample_args
     = 1%Z.
Proof.
  split; [| split].
  - apply (main_exit_codes short_cv_world sample_args). right.
    apply (run_rejected short_cv_world sample_args jd_page [Ok (Some cv_50)]);
      try reflexivity.
    right. vm_compute. reflexivity.
  - apply (main_exit_codes
             (sample_world None true (Ok jd_page) (Ok []) (Err "")) sample_args).
    left. reflexivity.
  - apply (main_exit_codes
             (sample_world (Some "sk-test") true (Err "timeout") (Ok [])
                (Err "")) sample_args).
    left. exists "timeout". split; [| reflexivity].
    vm_compute. tauto.
Defined.

(** ** Further facts on strings *)

Section MoreStringFacts.

Lemma join_cons2 (sep x y : string) (l : list string) :
  join sep (x :: y :: l) = x ++ sep ++ join sep (y :: l).
Proof. reflexivity. Qed.

Lemma In_join_Substring (sep f : string) (l : list string) :
  In f l -> Substring f (join sep l).
Proof.
  induction l as [|x l IH]; [intros [] |].
  destruct l as [|y l].
  - intros [<- | []]. apply Substring_refl.
  - rewrite join_cons2. intros [<- | H].
    + apply Substring_app_l, Substring_refl.
    + apply Substring_app_r, Substring_app_r, IH, H.
Qed.

Lemma lower_app (a b : string) : lower (a ++ b) = lower a ++ lower b.
Proof. induction a as [|c a IH]; simpl; [reflexivity | now rewrite IH]. Qed.

Lemma lower_char_idem (c : ascii) : lower_char (lower_char c) = lower_char c.
Proof. destruct c as [[] [] [] [] [] [] [] []]; reflexivity. Qed.

Lemma lower_idem (s : string) : lower (lower s) = lower s.
Proof.
  induction s as [|c s IH]; simpl; [reflexivity |].
  now rewrite lower_char_idem, IH.
Qed.

Lemma lower_length (s : string) : String.length (lower s) = String.length s.
Proof. induction s as [|c s IH]; simpl; [reflexivity | now rewrite IH]. Qed.

Lemma Substring_lower (a b : string) :
  Substring a b -> Substring (lower a) (lower b).
Proof.
  intros [p [q ->]]. exists (lower p), (lower q). now rewrite !lower_app.
Qed.

Lemma strip_trimmed (s : string) : strip s <> "" -> trimmed (strip s).
Proof.
  intros H. split; [exact H |]. unfold strip. split.
  - apply lstrip_rstrip_lstrip.
  - apply rstrip_idem.
Qed.

Lemma trimmed_app (x j : string) :
  trimmed x -> trimmed j -> trimmed (x ++ NL ++ j).
Proof.
  intros [Hx [Lx Rx]] [Hj [Lj Rj]]. split; [| split].
  - destruct x; [congruence | discriminate].
  - destruct (lstrip_head x) as [E | [c [r [E Hc]]]]; [congruence |].
    rewrite Lx in E. rewrite E. simpl. now rewrite Hc.
  - rewrite <- append_assoc. rewrite rstrip_app_l; rewrite Rj; [reflexivity | exact Hj].
Qed.

Lemma trimmed_join (l : list string) :
  l <> [] -> Forall trimmed l -> trimmed (join NL l).
Proof.
  induction l as [|x l IH]; [congruence |]. intros _ H.
  apply Forall_cons_iff in H as [Hx Hl]. destruct l as [|y l]; [exact Hx |].
  rewrite join_cons2. apply trimmed_app; [exact Hx |].
  apply IH; [discriminate | exact Hl].
Qed.

Lemma fragments_trimmed (l : list string) : Forall trimmed (fragments l).
Proof.
  unfold fragments. apply Forall_forall. intros f Hf.
  apply filter_In in Hf as [Hin Ht]. apply in_map_iff in Hin as [s [<- _]].
  apply strip_trimmed. intros E. now rewrite E in Ht.
Qed.

Lemma strip_join_fragments (l : list string) :
  strip (join NL (fragments l)) = join NL (fragments l).
Proof.
  destruct (fragments l) as [|f r] eqn:E; [reflexivity |].
  assert (H : trimmed (join NL (f :: r))).
  { apply trimmed_join; [discriminate |]. rewrite <- E. apply fragments_trimmed. }
  destruct H as [_ [Hl Hr]]. unfold strip. now rewrite Hl, Hr.
Qed.

Lemma strip_get_text (n : node) : strip (get_text NL n) = get_text NL n.
Proof. apply strip_join_fragments. Qed.

Lemma strip_empty_iff (s : string) : strip s = "" <-> lstrip s = "".
Proof.
  unfold strip. split; [| now intros ->].
  destruct (lstrip_head s) as [E | [c [r [E Hc]]]]; [now rewrite E |].
  rewrite E, (rstrip_cons c r Hc). discriminate.
Qed.

Lemma lstrip_app_empty (a b : string) :
  lstrip (a ++ b) = "" <-> lstrip a = "" /\ lstrip b = "".
Proof.
  induction a as [|c a IH]; simpl; [tauto |].
  destruct (isspace c); [exact IH |]. split; [discriminate | intros [H _]; discriminate].
Qed.

Lemma strip_app_empty (a b : string) :
  strip (a ++ b) = "" <-> strip a = "" /\ strip b = "".
Proof. rewrite !strip_empty_iff. apply lstrip_app_empty. Qed.

(** The join of some texts strips to nothing exactly when each of them
    does. *)
Lemma strip_join_empty (l : list string) :
  strip (join NL l) = "" <-> Forall (fun t => strip t = "") l.
Proof.
  induction l as [|x l IH]; [split; [constructor | reflexivity] |].
  destruct l as [|y l].
  - simpl. split; [intros H; now constructor | intros H; now inversion H].
  - rewrite join_cons2, !strip_app_empty, IH, (Forall_cons_iff _ x).
    assert (strip NL = "") by reflexivity. tauto.
Qed.

End MoreStringFacts.

(** ** More on the HTML text extractor *)

(** X1: whatever page comes back, the title and the text that
    [fetch_job_text] returns carry no white space at either end. *)
Theorem fetch_job_text_outputs_stripped
    (w : World) (url : string) (timeout : Z) (tr : trace) (sp : soup) :
  requests_get w url = Ok sp ->
  exists title text,
    fst (fetch_job_text w url timeout tr) = Return (title, text)
    /\ strip title = title
    /\ strip text = text.
Proof.
  intros H. exists (soup_title sp), (soup_text sp).
  rewrite fetch_job_text_run, H. split; [reflexivity |]. split.
  - unfold soup_title. destruct (find "title" sp) as [t |]; [| reflexivity].
    destruct (dot_string t) as [s |]; [| reflexivity].
    destruct (truthy s); [apply strip_idem | reflexivity].
  - unfold soup_text. destruct (find "body" sp); apply strip_get_text.
Qed.

Lemma fetch_job_text_outputs_stripped_witness :
  exists title text,
    fst (fetch_job_text
           (sample_world None true (Ok sample_page) (Err "") (Err ""))
           "https://company.com/careers/123" 25 [])
    = Return (title, text)
    /\ strip title = title
    /\ strip text = text.
Proof.
  apply (fetch_job_text_outputs_stripped
           (sample_world None true (Ok sample_page) (Err "") (Err ""))
           "https://company.com/careers/123" 25 [] sample_page).
  reflexivity.
Defined.

(** X2: when the page has no body element nothing is cut out: every
    rendered string of the document, navigation included, shows up stripped
    in the text. *)
Theorem fetch_job_text_without_body_keeps_all
    (w : World) (url : string) (timeout : Z) (tr : trace) (sp : soup) :
  requests_get w url = Ok sp ->
  find "body" sp = None ->
  exists title text,
    fst (fetch_job_text w url timeout tr) = Return (title, text)
    /\ forall s, In s (flat_map all_strings sp) -> Substring (strip s) text.
Proof.
  intros H Hb. exists (soup_title sp), (soup_text sp).
  rewrite fetch_job_text_run, H. split; [reflexivity |].
  intros s Hs. unfold soup_text. rewrite Hb. unfold get_text.
  destruct (strip s) as [|c r] eqn:E; [apply Substring_empty |].
  apply In_join_Substring, filter_In. split.
  - rewrite <- E. apply in_map. exact Hs.
  - reflexivity.
Qed.

Lemma fetch_job_text_without_body_keeps_all_witness :
  find "body" bodiless_page = None
  /\ exists title text,
       fst (fetch_job_text
              (sample_world None true (Ok bodiless_page) (Err "") (Err ""))
              "https://company.com/jobs" 25 [])
       = Return (title, text)
       /\ Substring "Home" text.
Proof.
  split; [reflexivity |].
  destruct (fetch_job_text_without_body_keeps_all
              (sample_world None true (Ok bodiless_page) (Err "") (Err ""))
              "https://company.com/jobs" 25 [] bodiless_page eq_refl eq_refl)
    as [title [text [H Hall]]].
  exists title, text. split; [exact H |].
  apply (Hall " Home "). simpl. tauto.
Defined.

(** ** More on the PDF text extractor *)

Lemma kept_texts_textless (pages : list page) :
  Forall (fun t => strip t = "") (kept_texts pages) <-> Forall textless pages.
Proof.
  induction pages as [|p pages IH]; simpl.
  - split; constructor.
  - rewrite Forall_app, IH, (Forall_cons_iff textless).
    destruct p as [t | e]; simpl.
    + rewrite Forall_cons_iff. split; [tauto | intros [H1 H2]; repeat split; auto].
    + split; [tauto | intros [_ H]; split; [constructor | exact H]].
Qed.

(** X3: on a file that reads as a PDF the extractor returns the empty
    string, and no error, exactly when no page gives a character other than
    white space (each page raises, gives nothing, or gives blanks). *)
Theorem extract_pdf_text_empty_iff_textless
    (w : World) (path : string) (pages : list page) (tr : trace) :
  pdf_pages w path = Ok pages ->
  (fst (extract_pdf_text w path tr) = Return "" <-> Forall textless pages).
Proof.
  intros H. rewrite extract_pdf_text_run, H. cbn [fst].
  rewrite <- kept_texts_textless, <- strip_join_empty. split.
  - intros E. now injection E.
  - now intros ->.
Qed.

Lemma extract_pdf_text_empty_iff_textless_witness :
  fst (extract_pdf_text
         (sample_world None true (Err "") (Ok scanned_pages) (Err ""))
         "scan.pdf" [])
  = Return "".
Proof.
  apply (extract_pdf_text_empty_iff_textless
           (sample_world None true (Err "") (Ok scanned_pages) (Err ""))
           "scan.pdf" scanned_pages []); [reflexivity |].
  repeat constructor.
Defined.

(** ** More on the program *)

(** The seven ways a run can go, each with the run it gives in [Hr]. *)
Ltac run_cases w args Hr :=
  pose proof (run_unfold w args) as Hr;
  destruct (is_set (getenv w "OPENAI_API_KEY")) eqn:Hk; cbn [negb] in Hr;
  [ cbn zeta in Hr;
    destruct (path_exists w (cv args)) eqn:Hp; cbn [negb] in Hr;
    [ destruct (requests_get w (job_url args)) as [sp | e] eqn:Hf;
      [ destruct (pdf_pages w (cv args)) as [pages | e] eqn:Hx;
        [ destruct (negb (looks_like_job_description (soup_text sp))
                    || negb (looks_like_cv
                               (strip (join NL (kept_texts pages)))))
            eqn:Hb;
          [ | cbn zeta in Hr;
              destruct (chat_create w (model args) _)
                as [content | e] eqn:Hc ]
        | ]
      | ]
    | ]
  | ];
  unfold status, events; rewrite ?Hr; cbn [fst snd exit_status].

Lemma calls_notice_trace (url : string) : calls (notice_trace url) = [].
Proof. unfold notice_trace. now destruct (_ && _). Qed.

Lemma calls_after_notice (url : string) (tr : trace) :
  calls (notice_trace url ++ tr)%list = calls tr.
Proof. unfold calls. rewrite filter_app. fold (calls (notice_trace url)).
  now rewrite calls_notice_trace. Qed.

Lemma stderr_notice_trace (url : string) (msg : string) :
  ~ In (Stderr msg) (notice_trace url).
Proof. intros H. apply notice_trace_no_call in H. discriminate. Qed.

(** X4: the model is called only on texts both classifiers accept: a run
    that calls it has its credential and its CV file, has fetched a job text
    and extracted a CV text that pass both checks, and hands over the model
    of the arguments, the system prompt and the prompt built from these two
    texts and the URL. *)
Theorem model_called_only_on_accepted_texts
    (w : World) (args : Args) (m : string) (msgs : list (string * string)) :
  In (ChatCreate m msgs) (events w args) ->
  exists title job_text cv_text,
    is_set (getenv w "OPENAI_API_KEY") = true
    /\ path_exists w (cv args) = true
    /\ fst (fetch_job_text w (job_url args) 25 []) = Return (title, job_text)
    /\ fst (extract_pdf_text w (cv args) []) = Return cv_text
    /\ looks_like_job_description job_text = true
    /\ looks_like_cv cv_text = true
    /\ m = model args
    /\ msgs = [("system", SYSTEM_PROMPT);
               ("user", build_user_prompt job_text cv_text (job_url args))].
Proof.
  run_cases w args Hr; intros H; try (exfalso; not_in_events H).
  all: apply in_app_or in H as [H | H];
    [apply notice_trace_no_call in H; discriminate |].
  all: simpl in H; destruct H as [H | [H | [H | [H | []]]]]; try discriminate.
  all: injection H as <- <-.
  all: exists (soup_title sp), (soup_text sp),
         (strip (join NL (kept_texts pages))).
  all: rewrite fetch_job_text_run, extract_pdf_text_run, Hf, Hx.
  all: apply orb_false_iff in Hb as [Hb1 Hb2].
  all: apply negb_false_iff in Hb1; apply negb_false_iff in Hb2.
  all: repeat split; assumption || reflexivity.
Qed.

Lemma model_called_only_on_accepted_texts_witness :
  In (ChatCreate "gpt-4o-mini"
        (messages_for (soup_text jd_page) cv_two_cues
           "https://company.com/careers/123"))
     (events accepting_world sample_args)
  /\ looks_like_cv cv_two_cues = true.
Proof.
  assert (H : In (ChatCreate "gpt-4o-mini"
                    (messages_for (soup_text jd_page) cv_two_cues
                       "https://company.com/careers/123"))
                 (events accepting_world sample_args)).
  { vm_compute. tauto. }
  split; [exact H |].
  destruct (model_called_only_on_accepted_texts accepting_world sample_args
              _ _ H)
    as [title [job_text [cv_text [_ [_ [_ [Hx [_ [Hcv _]]]]]]]]].
  injection Hx as <-. exact Hcv.
Defined.

(** X5: a run calls the outside at most once each and in one order: the
    fetch of the posting, then the CV file, then the model; its calls are an
    initial part of this list. *)
Theorem main_calls_in_order (w : World) (args : Args) :
  exists n msgs,
    calls (events w args)
    = firstn n [HttpGet (job_url args) 25; OpenFile (cv args);
                ChatCreate (model args) msgs].
Proof.
  run_cases w args Hr; rewrite ?calls_after_notice.
  - now exists 2, [].
  - now exists 3, (messages_for (soup_text sp)
                     (strip (join NL (kept_texts pages))) (job_url args)).
  - now exists 3, (messages_for (soup_text sp)
                     (strip (join NL (kept_texts pages))) (job_url args)).
  - now exists 2, [].
  - now exists 1, [].
  - now exists 0, [].
  - now exists 0, [].
Qed.

(** X6: errors and only errors go to the error stream: the status of a run
    is not 0 exactly when its last event is a message on stderr, and a run
    of status 0 writes nothing there. *)
Theorem main_stderr_iff_failure (w : World) (args : Args) :
  (status w args <> 0%Z <->
   exists tr msg, events w args = (tr ++ [Stderr msg])%list)
  /\ (status w args = 0%Z -> forall msg, ~ In (Stderr msg) (events w args)).
Proof.
  run_cases w args Hr.
  - split.
    + split; [congruence |]. intros [tr [msg H]].
      apply (f_equal (@rev event)) in H. rewrite !rev_app_distr in H.
      simpl in H. discriminate.
    + intros _ msg H. not_in_events H.
  - split.
    + split; [congruence |]. intros [tr [msg H]].
      apply (f_equal (@rev event)) in H. rewrite !rev_app_distr in H.
      simpl in H. discriminate.
    + intros _ msg H. not_in_events H.
  - split; [| discriminate]. split; [| discriminate]. intros _.
    eexists (_ ++ [_; _; _])%list, _. now rewrite <- app_assoc.
  - split; [| discriminate]. split; [| discriminate]. intros _.
    eexists (_ ++ [_; _])%list, _. now rewrite <- app_assoc.
  - split; [| discriminate]. split; [| discriminate]. intros _.
    eexists (_ ++ [_])%list, _. now rewrite <- app_assoc.
  - split; [| discriminate]. split; [| discriminate]. intros _.
    eexists _, _. reflexivity.
  - split; [| discriminate]. split; [| discriminate]. intros _.
    now exists [], "[error] OPENAI_API_KEY not set. Put it in a .env or environment.".
Qed.


(** X8: a CV without selectable text is turned down, not reported as an
    error: when no page of the PDF gives a character other than white space,
    a run that gets that far prints the guidance message, exits with status
    0 and does not call the model. *)
Theorem main_rejects_textless_cv
    (w : World) (args : Args) (sp : soup) (pages : list page) :
  is_set (getenv w "OPENAI_API_KEY") = true ->
  path_exists w (cv args) = true ->
  requests_get w (job_url args) = Ok sp ->
  pdf_pages w (cv args) = Ok pages ->
  Forall textless pages ->
  rejected w args.
Proof.
  intros Hk Hp Hf Hx Ht. apply (run_rejected w args sp pages); try assumption.
  right. apply kept_texts_textless, strip_join_empty in Ht. now rewrite Ht.
Qed.

Lemma main_rejects_textless_cv_witness :
  rejected
    (sample_world (Some "sk-test") true (Ok jd_page) (Ok scanned_pages)
       (Err "unreachable"))
    sample_args.
Proof.
  apply (main_rejects_textless_cv
           (sample_world (Some "sk-test") true (Ok jd_page) (Ok scanned_pages)
              (Err "unreachable"))
           sample_args jd_page scanned_pages); try reflexivity.
  repeat constructor.
Defined.

(** ** More on the classifiers and the URL check *)

Section Monotone.

Lemma filter_length_le {A} (f g : A -> bool) (l : list A) :
  (forall x, f x = true -> g x = true) ->
  List.length (filter f l) <= List.length (filter g l).
Proof.
  intros H. induction l as [|x l IH]; simpl; [lia |].
  destruct (f x) eqn:E.
  - rewrite (H x E). simpl. lia.
  - destruct (g x); simpl; lia.
Qed.

Lemma cue_count_le (cues : list string) (t t' : string) :
  (forall c, Substring c (lower t) -> Substring c (lower t')) ->
  (cue_count cues t <= cue_count cues t')%Z.
Proof.
  intros H. rewrite !cue_count_present. apply inj_le, filter_length_le.
  intros c Hc. apply contains_spec. apply H. now apply contains_spec.
Qed.

Lemma cue_count_positive (cues : list string) (text : string) :
  (1 <= cue_count cues text)%Z <->
  exists c, In c cues /\ Substring c (lower text).
Proof.
  rewrite cue_count_present. split.
  - destruct (filter _ cues) as [|c l] eqn:E; [simpl; lia |]. intros _.
    assert (Hin : In c (filter (fun c => contains c (lower text)) cues))
      by (rewrite E; now left).
    apply filter_In in Hin as [Hin Hc]. exists c. split; [exact Hin |].
    now apply contains_spec.
  - intros [c [Hin Hs]]. apply contains_spec in Hs.
    assert (H : In c (filter (fun c => contains c (lower text)) cues))
      by (apply filter_In; now split).
    destruct (filter _ cues); [destruct H | simpl; lia].
Qed.

Lemma accepted_is_long (f : string -> bool) (text : string) :
  (forall t, (len t < 500)%Z -> f t = false) ->
  f text = true -> (500 <= len text)%Z.
Proof.
  intros Hshort H. destruct (Z_lt_le_dec (len text) 500) as [Hlt | Hle];
    [| exact Hle].
  rewrite (Hshort text Hlt) in H. discriminate.
Qed.

Lemma len_app_ge (p t q : string) : (len t <= len (p ++ t ++ q))%Z.
Proof. unfold len. rewrite !length_app. lia. Qed.

Lemma lower_inside (c p t q : string) :
  Substring c (lower t) -> Substring c (lower (p ++ t ++ q)).
Proof.
  intros H. rewrite !lower_app. now apply Substring_app_r, Substring_app_l.
Qed.

End Monotone.

(** X9: more text never turns a verdict from true to false: a text accepted
    by the CV classifier (or by the job-description classifier) is still
    accepted with anything put before and after it. *)
Theorem classifiers_keep_accepting_longer_text (p text q : string) :
  (looks_like_cv text = true -> looks_like_cv (p ++ text ++ q) = true)
  /\ (looks_like_job_description text = true ->
      looks_like_job_description (p ++ text ++ q) = true).
Proof.
  pose proof (len_app_ge p text q) as Hlen.
  pose proof (cue_count_le cv_cues text (p ++ text ++ q)
                (fun c => lower_inside c p text q)) as Hcv.
  pose proof (cue_count_le jd_cues text (p ++ text ++ q)
                (fun c => lower_inside c p text q)) as Hjd.
  split; intros H.
  - pose proof (accepted_is_long _ _ looks_like_cv_short H) as Hl.
    rewrite looks_like_cv_long in * by lia.
    apply Z.leb_le in H. apply Z.leb_le. lia.
  - pose proof (accepted_is_long _ _ looks_like_job_description_short H) as Hl.
    rewrite looks_like_job_description_long in * by lia.
    apply Z.leb_le in H. apply Z.leb_le. lia.
Qed.

Lemma classifiers_keep_accepting_longer_text_witness :
  looks_like_cv ("Curriculum vitae" ++ cv_two_cues ++ "References") = true.
Proof.
  apply (classifiers_keep_accepting_longer_text
           "Curriculum vitae" cv_two_cues "References").
  vm_compute. reflexivity.
Defined.

(** X10: the cue [about the role] never decides: the job-description
    classifier answers true exactly when the text has at least 500
    characters and its lower-cased form contains one of the other five
    cues. *)
Theorem looks_like_job_description_without_about_the_role (text : string) :
  looks_like_job_description text = true <->
  (500 <= len text)%Z
  /\ exists c,
       In c ["responsibilities"; "requirements"; "qualifications"; "role";
             "what you'll do"]
       /\ Substring c (lower text).
Proof.
  split.
  - intros H.
    pose proof (accepted_is_long _ _ looks_like_job_description_short H) as Hl.
    split; [exact Hl |].
    rewrite (looks_like_job_description_long text Hl) in H.
    apply Z.leb_le, cue_count_positive in H as [c [Hin Hs]].
    unfold jd_cues in Hin. simpl in Hin.
    destruct Hin as [<- | [<- | [<- | [<- | [<- | [<- | []]]]]]];
      try (eexists; split; [| exact Hs]; simpl; tauto).
    exists "role". split; [simpl; tauto |].
    eapply Substring_trans; [| exact Hs]. now exists "about the ", "".
  - intros [Hl [c [Hin Hs]]].
    rewrite (looks_like_job_description_long text Hl).
    apply Z.leb_le, cue_count_positive. exists c. split; [| exact Hs].
    unfold jd_cues. simpl in *. tauto.
Qed.

(** X11: what follows a plausible URL does not matter: if the check answers
    true on a URL it answers true on that URL with anything appended. *)
Theorem is_probable_job_url_keeps_with_suffix (u s : string) :
  is_probable_job_url (Some u) = Ok true ->
  is_probable_job_url (Some (u ++ s)) = Ok true.
Proof.
  rewrite !is_probable_job_url_Some. intros H. injection H as H.
  apply andb_true_iff in H as [Hs Hh]. f_equal. apply andb_true_iff. split.
  - apply re_match_scheme_spec in Hs. apply re_match_scheme_spec.
    destruct Hs as [[r ->] | [r ->]]; [left | right]; exists (r ++ s);
      now rewrite append_assoc.
  - apply url_hints_path_hints in Hh as [h [Hin Hsub]].
    apply url_hints_path_hints. exists h. split; [exact Hin |].
    rewrite lower_app. now apply Substring_app_l.
Qed.

Lemma is_probable_job_url_keeps_with_suffix_witness :
  is_probable_job_url (Some ("https://company.com/jobs" ++ "?id=7&REF=x"))
  = Ok true.
Proof.
  apply (is_probable_job_url_keeps_with_suffix
           "https://company.com/jobs" "?id=7&REF=x").
  reflexivity.
Defined.

(** ** More on the prompt assembler *)

(** X12: the texts are put in as they are, so the sections cannot be told
    apart afterwards: a job text that ends with a CV header and some text
    gives the same prompt as the job text without them and a CV that starts
    with that text. *)
Theorem build_user_prompt_boundary_shifts (a b c url : string) :
  build_user_prompt (a ++ NL ++ NL ++ "CV:" ++ NL ++ b) c url
  = build_user_prompt a (b ++ NL ++ NL ++ "CV:" ++ NL ++ c) url
  /\ a ++ NL ++ NL ++ "CV:" ++ NL ++ b <> a.
Proof.
  split.
  - unfold build_user_prompt. now rewrite !append_assoc.
  - intros H. apply (f_equal String.length) in H.
    rewrite !length_app in H. simpl in H. lia.
Qed.

(** ** The job search program *)

Section JobSearchFacts.

Import JobSearch.

Lemma Website_init_run (w : World) (u : string) (tr : trace) :
  Website_init w u tr =
  match requests_get w u with
  | Ok sp =>
      (Return {| url := u;
                 title := match find "title" sp with
                          | Some t => dot_string t
                          | None => Some "No title found"
                          end;
                 text := lower (get_text_plain " " (document sp)) |},
       (tr ++ [HttpGet u 20])%list)
  | Err e =>
      (Return {| url := u; title := Some "Error"; text := "" |},
       (tr ++ [HttpGet u 20;
               Stdout ("[Website] Failed to fetch " ++ u ++ ": " ++ e)])%list)
  end.
Proof.
  unfold Website_init, try_except, bind, emit. simpl.
  destruct (requests_get w u) as [sp | e]; simpl; [reflexivity |].
  unfold print, emit. now rewrite <- app_assoc.
Qed.

(** The run of the job search, case by case. *)
Lemma job_search_run (env : Env) :
  run env =
  let listing :=
    match requests_get (world env) careers_url with
    | Ok sp => lower (get_text_plain " " (document sp))
    | Err _ => ""
    end in
  let tr0 :=
    match requests_get (world env) careers_url with
    | Ok _ => [HttpGet careers_url 20]
    | Err e =>
        [HttpGet careers_url 20;
         Stdout ("[Website] Failed to fetch " ++ careers_url ++ ": " ++ e)]
    end in
  let msgs := [("system", system_prompt); ("user", user_prompt listing)] in
  match new_client env (getenv (world env) "GROQ_API_KEY")
          "https://api.groq.com/openai/v1" with
  | Err e => (Raise e, tr0)
  | Ok _ =>
      match chat_create (world env) "gemma2-9b-it" msgs with
      | Ok content =>
          (Return tt,
           (tr0 ++ [ChatCreate "gemma2-9b-it" msgs; Stdout content])%list)
      | Err e => (Raise e, (tr0 ++ [ChatCreate "gemma2-9b-it" msgs])%list)
      end
  end.
Proof.
  unfold run, main, bind. rewrite Website_init_run.
  destruct (requests_get (world env) careers_url) as [sp | e0];
    cbn [text app]; cbv zeta;
    destruct (new_client env _ _) as [[] | e1]; cbn [lift ret raise];
    try reflexivity;
    unfold chat_completions_create, bind, emit;
    destruct (chat_create _ _ _) as [content | e]; reflexivity.
Qed.

End JobSearchFacts.

(** X13: building a [Website] never raises and asks the network once: when
    the fetch fails the object has the title [Error] and an empty text, and
    the failure is printed; when it succeeds nothing is printed. *)
Theorem Website_never_raises (w : World) (u : string) (tr : trace) :
  exists site,
    fst (JobSearch.Website_init w u tr) = Return site
    /\ JobSearch.url site = u
    /\ calls (snd (JobSearch.Website_init w u tr))
       = (calls tr ++ [HttpGet u 20])%list
    /\ (forall e, requests_get w u = Err e ->
        JobSearch.title site = Some "Error"
        /\ JobSearch.text site = ""
        /\ snd (JobSearch.Website_init w u tr)
           = (tr ++ [HttpGet u 20;
                     Stdout ("[Website] Failed to fetch " ++ u ++ ": " ++ e)])%list)
    /\ (forall sp, requests_get w u = Ok sp ->
        snd (JobSearch.Website_init w u tr) = (tr ++ [HttpGet u 20])%list).
Proof.
  rewrite Website_init_run. unfold calls.
  destruct (requests_get w u) as [sp | e]; eexists; cbn [fst snd];
    (split; [reflexivity |]); (split; [reflexivity |]);
    (split; [now rewrite filter_app |]); split; intros x Hx;
    try discriminate; try reflexivity.
  injection Hx as <-. repeat split.
Qed.

(** X14: the text of a [Website] is the whole page in lower case: it is
    unchanged by lower-casing, and it contains the lower-cased form of every
    rendered string of the document, whatever tag holds it. *)
Theorem Website_text_lower_case_whole_page
    (w : World) (u : string) (tr : trace) (sp : soup) :
  requests_get w u = Ok sp ->
  exists site,
    fst (JobSearch.Website_init w u tr) = Return site
    /\ lower (JobSearch.text site) = JobSearch.text site
    /\ (forall s, In s (flat_map all_strings sp) ->
        Substring (lower s) (JobSearch.text site))
    /\ (JobSearch.title site = None -> exists t, find "title" sp = Some t).
Proof.
  intros H. rewrite Website_init_run, H. eexists. cbn [fst].
  split; [reflexivity |]. cbn [JobSearch.text JobSearch.title].
  split; [apply lower_idem |]. split.
  - intros s Hs. apply Substring_lower. unfold JobSearch.get_text_plain.
    now apply In_join_Substring.
  - destruct (find "title" sp) as [t |]; [eauto | discriminate].
Qed.

Lemma Website_text_lower_case_whole_page_witness :
  exists site,
    fst (JobSearch.Website_init
           (sample_world None true (Ok sample_page) (Err "") (Err ""))
           JobSearch.careers_url [])
    = Return site
    /\ Substring "home about" (JobSearch.text site).
Proof.
  destruct (Website_text_lower_case_whole_page
              (sample_world None true (Ok sample_page) (Err "") (Err ""))
              JobSearch.careers_url [] sample_page eq_refl)
    as [site [Hs [_ [Hall _]]]].
  exists site. split; [exact Hs |].
  apply (Hall "Home About"). simpl. tauto.
Defined.



(** X16: when the client cannot be built (no key), the job search ends with
    that exception, uncaught, so with status 1; the page has been fetched
    but the model is not called and no result is printed. *)
Theorem job_search_client_error_uncaught (env : JobSearch.Env) (e : exn) :
  JobSearch.new_client env (getenv (JobSearch.world env) "GROQ_API_KEY")
    "https://api.groq.com/openai/v1" = Err e ->
  fst (JobSearch.run env) = Raise e
  /\ exit_status (fst (JobSearch.run env)) = 1%Z
  /\ calls (snd (JobSearch.run env)) = [HttpGet JobSearch.careers_url 20].
Proof.
  intros Hc. rewrite job_search_run, Hc. cbv zeta. cbn [fst snd exit_status].
  repeat split.
  now destruct (requests_get (JobSearch.world env) JobSearch.careers_url).
Qed.

Lemma job_search_client_error_uncaught_witness :
  exit_status (fst (JobSearch.run keyless_env)) = 1%Z.
Proof.
  apply (job_search_client_error_uncaught keyless_env "api_key must be set").
  reflexivity.
Defined.
